(** * The automated answer-grading engine of acadTest

    A shallow embedding of [assessment/services/grading_service.py]
    together with the properties its specification states about it.

    Modelling conventions.
    - A Python [str] is a list of characters.  Only ASCII text is modelled:
      on characters above 127 the case maps below are the identity, and such
      characters are neither letters, digits nor white space.
    - A Python [float] is modelled by an exact rational ([Q]); binary
      rounding of the arithmetic is not modelled.  [round(x, 2)] rounds to
      the nearest hundredth, ties to even.
    - [question.marks] is a [Decimal] with two decimal places; it is
      represented by its number of hundredths.
    - The TF-IDF vectorizer and the cosine similarity come from scikit-learn.
      They are parameters of the development: a state type for the
      vectorizer object held by the grader and one operation that fits the
      vectorizer on the two texts and returns their similarity, or raises.
    - A Python call either returns a value or raises; methods of the grader
      additionally thread the vectorizer they hold. *)

From Stdlib Require Import Ascii String QArith Qround Lqa Lia ZArith.
From Stdlib Require Import DecimalString Sorted Permutation.
From stdpp Require Import base option list gmap sets strings sorting.

#[local] Open Scope Q_scope.
#[local] Open Scope nat_scope.

(** ** String literals for character lists *)

Inductive lascii : Set := lnil | lcons (a : ascii) (l : lascii).

Fixpoint lascii_of_bytes (l : list Byte.byte) : lascii :=
  match l with
  | [] => lnil
  | b :: l => lcons (ascii_of_byte b) (lascii_of_bytes l)
  end.

Fixpoint bytes_of_lascii (l : lascii) : list Byte.byte :=
  match l with
  | lnil => []
  | lcons a l => byte_of_ascii a :: bytes_of_lascii l
  end.

Declare Scope str_scope.
Delimit Scope str_scope with str.
#[warnings="-via-type-mismatch"]
String Notation list lascii_of_bytes bytes_of_lascii
  (via lascii mapping [[nil] => lnil, [cons] => lcons]) : str_scope.
#[local] Open Scope str_scope.

(** ** Python built-ins used by the grader *)

Module Py.

Abbreviation str := (list ascii).

Definition code (c : ascii) : nat := nat_of_ascii c.

Definition between (lo hi : nat) (c : ascii) : bool :=
  (lo <=? code c) && (code c <=? hi).

(** [str.isspace] on ASCII: TAB..CR, FS..US and the space. *)
Definition isspace (c : ascii) : bool := between 9 13 c || between 28 32 c.

Definition isupper (c : ascii) : bool := between 65 90 c.
Definition islower (c : ascii) : bool := between 97 122 c.
Definition isalpha (c : ascii) : bool := isupper c || islower c.
Definition isdigit (c : ascii) : bool := between 48 57 c.

Definition lower_char (c : ascii) : ascii :=
  if isupper c then ascii_of_nat (code c + 32) else c.
Definition upper_char (c : ascii) : ascii :=
  if islower c then ascii_of_nat (code c - 32) else c.

(** [s.lower()], [s.upper()] *)
Definition lower (s : str) : str := map lower_char s.
Definition upper (s : str) : str := map upper_char s.

(** [s.lstrip()], [s.rstrip()], [s.strip()] *)
Fixpoint lstrip (s : str) : str :=
  match s with
  | [] => []
  | c :: s' => if isspace c then lstrip s' else s
  end.
Definition rstrip (s : str) : str := rev (lstrip (rev s)).
Definition strip (s : str) : str := rstrip (lstrip s).

(** [s.split()]: the maximal runs of non-space characters, in order.
    [word] is the run being read. *)
Fixpoint split_from (word : str) (s : str) : list str :=
  match s with
  | [] => match word with [] => [] | _ => [word] end
  | c :: s' =>
      if isspace c
      then match word with
           | [] => split_from [] s'
           | _ => word :: split_from [] s'
           end
      else split_from (word ++ [c]) s'
  end.
Definition split (s : str) : list str := split_from [] s.

(** [s.startswith(p)] *)
Fixpoint startswith (p s : str) : bool :=
  match p, s with
  | [], _ => true
  | _ :: _, [] => false
  | a :: p', b :: s' => bool_decide (a = b) && startswith p' s'
  end.

(** [sub in s] *)
Fixpoint contains (sub s : str) : bool :=
  startswith sub s ||
  match s with
  | [] => false
  | _ :: s' => contains sub s'
  end.

(** [sep.join(parts)] *)
Fixpoint join (sep : str) (parts : list str) : str :=
  match parts with
  | [] => []
  | [p] => p
  | p :: rest => p ++ sep ++ join sep rest
  end.

(** [str(n)] for a non-negative [int] *)
Definition str_of_nat (n : nat) : str :=
  list_ascii_of_string (NilZero.string_of_uint (Nat.to_uint n)).

(** The empty string *)
Definition empty : str := [].

(** Truthiness of a sequence: [not xs] *)
Definition is_empty {A} (xs : list A) : bool :=
  match xs with [] => true | _ => false end.

End Py.

(** ** The regular expression of [_extract_keywords] *)

Module Re.

Import Py.

(** [\w] on ASCII text *)
Definition is_word (c : ascii) : bool :=
  isalpha c || isdigit c || bool_decide (c = "_"%char).

(** Whether the character at a position (none beyond the ends) is a word
    character. *)
Definition word_at (c : option ascii) : bool := from_option is_word false c.

(** [\b]: exactly one of the two neighbours is a word character. *)
Definition boundary (prev next : option ascii) : bool :=
  xorb (word_at prev) (word_at next).

(** Length of the longest prefix matching [[a-zA-Z]*]. *)
Fixpoint run_length (s : str) : nat :=
  match s with
  | c :: s' => if isalpha c then S (run_length s') else 0
  | [] => 0
  end.

(** Backtracking of the greedy [{4,}] against the closing [\b]: having taken
    [k] letters, accept if there is a boundary after them, otherwise give one
    letter back; [tries] bounds how many lengths remain to be tried. *)
Fixpoint give_back (s : str) (k tries : nat) : option nat :=
  match tries with
  | 0 => None
  | S tries' =>
      if boundary (s !! (k - 1)) (s !! k) then Some k
      else give_back s (k - 1) tries'
  end.

(** A match of [\b[a-zA-Z]{4,}\b] starting at the current position, [prev]
    being the character before it: the length of the match. *)
Definition match_here (prev : option ascii) (s : str) : option nat :=
  if boundary prev (head s) then
    let n := run_length s in
    if 4 <=? n then give_back s n (n - 3) else None
  else None.

(** [re.findall]: scan left to right; after a match resume behind it,
    otherwise advance by one character. *)
Fixpoint findall_from (fuel : nat) (prev : option ascii) (s : str) : list str :=
  match fuel with
  | 0 => []
  | S fuel' =>
      match match_here prev s with
      | Some k => take k s :: findall_from fuel' (last (take k s)) (drop k s)
      | None =>
          match s with
          | [] => []
          | c :: s' => findall_from fuel' (Some c) s'
          end
      end
  end.

(** [re.findall(r"\b[a-zA-Z]{4,}\b", s)] *)
Definition findall (s : str) : list str := findall_from (S (length s)) None s.

End Re.

(** ** Numbers *)

(** Python floats, idealised as exact rationals. *)
Definition float : Type := Q.

(** A [Decimal] with two decimal places, as its number of hundredths. *)
Record Decimal : Type := { hundredths : Z }.

(** [float(d)] *)
Definition float_of_Decimal (d : Decimal) : float := hundredths d # 100.

(** [float(n)] for an [int] *)
Definition float_of_nat (n : nat) : float := inject_Z (Z.of_nat n).

(** Nearest integer, ties to even. *)
Definition round_half_even (x : Q) : Z :=
  let f := Qfloor x in
  match Qcompare (x - inject_Z f) (1 # 2) with
  | Lt => f
  | Gt => (f + 1)%Z
  | Eq => if Z.even f then f else (f + 1)%Z
  end.

(** [round(x, 2)] *)
Definition round2 (x : float) : float := round_half_even (x * 100) # 100.

(** [x >= y] and [x < y] on floats *)
Definition ge (x y : float) : bool := Qle_bool y x.
Definition lt (x y : float) : bool := negb (Qle_bool y x).

(** ** Exceptions and outcomes *)

Record exception : Type := Exception { exc_class : Py.str; exc_msg : Py.str }.

Inductive outcome (A : Type) : Type :=
| Return (a : A)
| Raise (e : exception).
Arguments Return {A} a.
Arguments Raise {A} e.

Definition ZeroDivisionError : exception := Exception "ZeroDivisionError" "division by zero".
Definition NotImplementedError (msg : Py.str) : exception := Exception "NotImplementedError" msg.

(** [a / b] on [int]s *)
Definition truediv (a b : nat) : outcome float :=
  match b with
  | 0 => Raise ZeroDivisionError
  | S _ => Return (float_of_nat a / float_of_nat b)%Q
  end.

(** Computations of a method: they may raise and they may update the object
    [self] of type [S]. *)
Definition method (S A : Type) : Type := S -> outcome A * S.

Definition ret {S A} (a : A) : method S A := fun self => (Return a, self).

Definition raise {S A} (e : exception) : method S A := fun self => (Raise e, self).

Definition bind {S A B} (m : method S A) (k : A -> method S B) : method S B :=
  fun self =>
    match m self with
    | (Return a, self') => k a self'
    | (Raise e, self') => (Raise e, self')
    end.

(** A pure call that may raise, made inside a method. *)
Definition lift {S A} (o : outcome A) : method S A := fun self => (o, self).

(** [try: body except Exception: handler] *)
Definition try_except {S A} (body : method S A) (handler : method S A) : method S A :=
  fun self =>
    match body self with
    | (Return a, self') => (Return a, self')
    | (Raise _, self') => handler self'
    end.

Notation "'do' x <- m ; k" := (bind m (fun x => k))
  (at level 10, x name, m at level 100, k at level 200).

(** ** Data model *)

(** The fields of [Question] the grader reads.  [grading_criteria] is a JSON
    object; its entries are lists of strings, which is what the grader
    expects under the key ["keywords"]. *)
Record Question : Type := {
  question_type : Py.str;
  question_text : Py.str;
  marks : Decimal;
  expected_answer : Py.str;
  grading_criteria : gmap Py.str (list Py.str);
}.

(** Values stored in the [metadata] dictionary. *)
Inductive meta_value : Type :=
| MStr (s : Py.str)
| MFloat (x : float)
| MInt (n : nat).

(** The dictionary returned by [grade_answer]; [metadata] lists its entries
    in the order of the dictionary display. *)
Record GradingResult : Type := {
  score : float;
  feedback : Py.str;
  is_correct : bool;
  metadata : list (Py.str * meta_value);
}.

(** ** Dictionaries that keep insertion order *)

Module Dict.

Import Py.

Definition dict (V : Type) : Type := list (str * V).

(** [d.get(k, default)] *)
Fixpoint get {V} (d : dict V) (k : str) (default : V) : V :=
  match d with
  | [] => default
  | (k', v) :: d' => if bool_decide (k' = k) then v else get d' k default
  end.

(** [d[k] = v]: overwrite in place, or append a new entry. *)
Fixpoint set {V} (d : dict V) (k : str) (v : V) : dict V :=
  match d with
  | [] => [(k, v)]
  | (k', v') :: d' =>
      if bool_decide (k' = k) then (k', v) :: d' else (k', v') :: set d' k v
  end.

(** One step of a stable sort by decreasing key: [x], which comes before
    all of [l] in the input, is placed before the first element whose key
    does not exceed its own. *)
Fixpoint insert_desc {A} (key : A -> nat) (x : A) (l : list A) : list A :=
  match l with
  | [] => [x]
  | y :: l' => if key x <? key y then y :: insert_desc key x l' else x :: l
  end.

(** [sorted(l, key=key, reverse=True)]: decreasing keys, elements with equal
    keys in their original order. *)
Fixpoint sorted_desc {A} (key : A -> nat) (l : list A) : list A :=
  match l with
  | [] => []
  | x :: l' => insert_desc key x (sorted_desc key l')
  end.

End Dict.

(** ** The mock grading service *)

Section MockGradingService.

Import Py.

(** The [TfidfVectorizer] object and what [_calculate_similarity] does with
    it inside its [try]: fit it on the two texts and return the cosine
    similarity of the two rows, or raise. *)
Variable vectorizer : Type.
Variable fit_transform_cosine : str -> str -> method vectorizer float.

(** [TfidfVectorizer(stop_words="english")], as built by [__init__]. *)
Variable TfidfVectorizer : vectorizer.

(** [_normalize_text] *)
Definition _normalize_text (text : str) : str := upper (strip text).

(** The frequency loop of [_extract_keywords] *)
Definition count_words (words : list str) : Dict.dict nat :=
  fold_left (fun word_freq word => Dict.set word_freq word (Dict.get word_freq word 0 + 1))
            words [].

(** [_extract_keywords] *)
Definition _extract_keywords (text : str) (top_n : nat) : list str :=
  let words := Re.findall (lower text) in
  let word_freq := count_words words in
  let sorted_words := Dict.sorted_desc snd word_freq in
  map fst (take top_n sorted_words).

(** [_calculate_keyword_score] *)
Definition _calculate_keyword_score (question : Question) (answer_text : str)
  : outcome float :=
  let keywords := default [] (grading_criteria question !! "keywords") in
  let keywords :=
    if is_empty keywords then _extract_keywords (expected_answer question) 5
    else keywords in
  if is_empty keywords then Return (1 # 2)%Q
  else
    let answer_lower := lower answer_text in
    let matched := length (filter (fun kw => contains (lower kw) answer_lower = true) keywords) in
    if is_empty keywords then Return (1 # 2)%Q
    else truediv matched (length keywords).

(** The [except] branch of [_calculate_similarity] *)
Definition word_overlap (expected submitted : str) : outcome float :=
  let expected_words : gset str := list_to_set (split (lower expected)) in
  let submitted_words : gset str := list_to_set (split (lower submitted)) in
  if bool_decide (size expected_words = 0) then Return 0%Q
  else
    let overlap := size (expected_words ∩ submitted_words) in
    truediv overlap (size expected_words).

(** [_calculate_similarity] *)
Definition _calculate_similarity (expected submitted : str) : method vectorizer float :=
  if is_empty (strip expected) || is_empty (strip submitted) then ret 0%Q
  else
    try_except
      (fit_transform_cosine expected submitted)
      (lift (word_overlap expected submitted)).

(** [_calculate_length_score] *)
Definition _calculate_length_score (text : str) : float :=
  let word_count := length (split text) in
  if word_count <? 50 then (3 # 10)%Q
  else if word_count <? 100 then (6 # 10)%Q
  else if word_count <? 200 then (9 # 10)%Q
  else 1%Q.

(** [_generate_feedback] *)
Definition _generate_feedback (combined keyword similarity : float) : str :=
  if ge combined (9 # 10) then "Excellent answer! Well done."
  else if ge combined (7 # 10) then "Good answer. You covered the main points."
  else if ge combined (5 # 10) then
    "Partial credit. Your answer covers some key concepts but could be improved."
  else "Your answer needs improvement. Please review the key concepts.".

(** [_generate_detailed_feedback] *)
Definition _generate_detailed_feedback
  (combined length keyword similarity : float) (answer : str) : str :=
  let feedback_parts : list str := [] in
  let feedback_parts :=
    if ge combined (8 # 10) then feedback_parts ++ ["Excellent comprehensive answer!"]
    else if ge combined (6 # 10) then
      feedback_parts ++ ["Good answer with room for improvement."]
    else feedback_parts ++ ["Your answer needs significant improvement."] in
  let word_count := List.length (split answer) in
  let feedback_parts :=
    if lt length (6 # 10) then
      feedback_parts ++
        ["Consider expanding your answer (current: " ++ str_of_nat word_count ++ " words)."]
    else feedback_parts in
  let feedback_parts :=
    if lt keyword (5 # 10) then
      feedback_parts ++ ["Include more key concepts from the topic."]
    else feedback_parts in
  let feedback_parts :=
    if lt similarity (4 # 10) then
      feedback_parts ++ ["Your answer could align better with the expected content."]
    else feedback_parts in
  join " " feedback_parts.

(** [_grade_mcq] *)
Definition _grade_mcq (question : Question) (answer_text : str)
  : method vectorizer GradingResult :=
  let expected := _normalize_text (expected_answer question) in
  let submitted := _normalize_text answer_text in
  let is_correct := bool_decide (expected = submitted) in
  let score := if is_correct then float_of_Decimal (marks question) else 0%Q in
  let feedback :=
    if is_correct then "Correct answer!"
    else "Incorrect. Expected: " ++ expected_answer question in
  ret {| score := score;
         feedback := feedback;
         is_correct := is_correct;
         metadata := [("grading_method", MStr "exact_match");
                      ("expected", MStr expected);
                      ("submitted", MStr submitted)] |}.

(** [_grade_short_answer] *)
Definition _grade_short_answer (question : Question) (answer_text : str)
  : method vectorizer GradingResult :=
  do keyword_score <- lift (_calculate_keyword_score question answer_text);
  do similarity_score <- _calculate_similarity (expected_answer question) answer_text;
  let combined_score := ((6 # 10) * keyword_score + (4 # 10) * similarity_score)%Q in
  let final_score := (float_of_Decimal (marks question) * combined_score)%Q in
  let is_correct := ge combined_score (7 # 10) in
  let feedback := _generate_feedback combined_score keyword_score similarity_score in
  ret {| score := round2 final_score;
         feedback := feedback;
         is_correct := is_correct;
         metadata := [("grading_method", MStr "keyword_similarity");
                      ("keyword_score", MFloat (round2 keyword_score));
                      ("similarity_score", MFloat (round2 similarity_score));
                      ("combined_score", MFloat (round2 combined_score))] |}.

(** [_grade_long_answer] *)
Definition _grade_long_answer (question : Question) (answer_text : str)
  : method vectorizer GradingResult :=
  let length_score := _calculate_length_score answer_text in
  do keyword_score <- lift (_calculate_keyword_score question answer_text);
  do similarity_score <- _calculate_similarity (expected_answer question) answer_text;
  let combined_score :=
    ((3 # 10) * length_score + (3 # 10) * keyword_score + (4 # 10) * similarity_score)%Q in
  let final_score := (float_of_Decimal (marks question) * combined_score)%Q in
  let is_correct := ge combined_score (6 # 10) in
  let feedback :=
    _generate_detailed_feedback combined_score length_score keyword_score
      similarity_score answer_text in
  ret {| score := round2 final_score;
         feedback := feedback;
         is_correct := is_correct;
         metadata := [("grading_method", MStr "comprehensive");
                      ("length_score", MFloat (round2 length_score));
                      ("keyword_score", MFloat (round2 keyword_score));
                      ("similarity_score", MFloat (round2 similarity_score));
                      ("combined_score", MFloat (round2 combined_score));
                      ("word_count", MInt (List.length (split answer_text)))] |}.

(** [MockGradingService.grade_answer] *)
Definition grade_answer (question : Question) (answer_text : str)
  : method vectorizer GradingResult :=
  if bool_decide (question_type question = "MCQ")
     || bool_decide (question_type question = "TRUE_FALSE")
  then _grade_mcq question answer_text
  else if bool_decide (question_type question = "SHORT")
  then _grade_short_answer question answer_text
  else _grade_long_answer question answer_text.

(** [MockGradingService()]: the object is its vectorizer attribute. *)
Definition MockGradingService_init : vectorizer := TfidfVectorizer.

(** [LLMGradingService] *)
Record LLMGradingService : Type := { api_key : option str; model : str }.

(** [LLMGradingService(api_key=None, model="gpt-4")] *)
Definition LLMGradingService_init (api_key : option str) (model : option str)
  : LLMGradingService :=
  {| api_key := api_key; model := default "gpt-4" model |}.

(** [LLMGradingService.grade_answer] *)
Definition llm_grade_answer (question : Question) (answer_text : str)
  : method LLMGradingService GradingResult :=
  raise (NotImplementedError "LLM grading service not implemented").

(** The implementations of [BaseGradingService]. *)
Inductive BaseGradingService : Type :=
| Mock (self : vectorizer)
| LLM (self : LLMGradingService).

(** [service.grade_answer(question, answer_text)], by dynamic dispatch. *)
Definition service_grade_answer (question : Question) (answer_text : str)
  : method BaseGradingService GradingResult :=
  fun service =>
    match service with
    | Mock self =>
        let (r, self') := grade_answer question answer_text self in (r, Mock self')
    | LLM self =>
        let (r, self') := llm_grade_answer question answer_text self in (r, LLM self')
    end.

(** [get_grading_service]; the argument is [None] when the caller omits it. *)
Definition get_grading_service (service_type : option str) : BaseGradingService :=
  let service_type := default "mock" service_type in
  if bool_decide (service_type = "mock") then Mock MockGradingService_init
  else if bool_decide (service_type = "llm") then LLM (LLMGradingService_init None None)
  else Mock MockGradingService_init.

End MockGradingService.

Arguments _calculate_similarity {vectorizer} fit_transform_cosine expected submitted.
Arguments _grade_mcq {vectorizer} question answer_text.
Arguments _grade_short_answer {vectorizer} fit_transform_cosine question answer_text.
Arguments _grade_long_answer {vectorizer} fit_transform_cosine question answer_text.
Arguments grade_answer {vectorizer} fit_transform_cosine question answer_text.
Arguments MockGradingService_init {vectorizer} TfidfVectorizer.
Arguments BaseGradingService vectorizer : clear implicits.
Arguments Mock {vectorizer} self.
Arguments LLM {vectorizer} self.
Arguments service_grade_answer {vectorizer} fit_transform_cosine question answer_text.
Arguments get_grading_service {vectorizer} TfidfVectorizer service_type.

(** ** The vocabulary of the specification *)

Module Spec.

Import Py.

(** The question types the specification lists. *)
Definition supported_types : list str := ["MCQ"; "TRUE_FALSE"; "SHORT"; "LONG"; "ESSAY"].

(** A text that is empty or consists of white space only. *)
Definition blank (s : str) : Prop := Forall (fun c => isspace c = true) s.

(** [sub] occurs in [s] up to the case of letters. *)
Definition ci_substring (sub s : str) : Prop :=
  exists pre mid post, s = pre ++ mid ++ post /\ lower mid = lower sub.

(** The maximal runs of characters satisfying [P], in order; [cur] is the
    run being read. *)
Fixpoint runs_from (P : ascii -> bool) (cur : str) (s : str) : list str :=
  match s with
  | [] => match cur with [] => [] | _ => [cur] end
  | c :: s' =>
      if P c then runs_from P (cur ++ [c]) s'
      else match cur with
           | [] => runs_from P [] s'
           | _ => cur :: runs_from P [] s'
           end
  end.

(** The words of a text: its maximal runs of letters, digits and
    underscores. *)
Definition words (s : str) : list str := runs_from Re.is_word [] s.

(** Alphabetic words of length at least four. *)
Definition long_alpha (w : str) : bool := forallb isalpha w && (4 <=? length w).
Definition alphabetic_words (s : str) : list str := List.filter long_alpha (words s).

(** How often [w] occurs in [ws]. *)
Definition frequency (ws : list str) (w : str) : nat :=
  length (filter (fun x => x = w) ws).

(** In [ws], [a] is seen first before [b] is. *)
Definition seen_before (ws : list str) (a b : str) : Prop :=
  exists l1 l2, ws = l1 ++ a :: l2 /\ (a ∉ l1) /\ (b ∉ l1) /\ a <> b.

(** [a] ranks before [b]: it is more frequent, or as frequent and seen
    first. *)
Definition ranks_before (ws : list str) (a b : str) : Prop :=
  frequency ws b < frequency ws a \/
  (frequency ws a = frequency ws b /\ seen_before ws a b).

(** In [l], an occurrence of [x] is followed by one of [y]. *)
Definition occurs_before {A} (l : list A) (x y : A) : Prop :=
  exists l1 l2, l = l1 ++ x :: l2 /\ y ∈ l2.

(** The order a stable sort of [l] by decreasing [key] puts elements in. *)
Definition stable_desc {A} (key : A -> nat) (l : list A) (x y : A) : Prop :=
  key y < key x \/ (key x = key y /\ occurs_before l x y).

(** [kws] are the [n] most frequent of the words [ws], most frequent first,
    ties in first-seen order. *)
Record top_words (n : nat) (ws kws : list str) : Prop := {
  top_nodup : NoDup kws;
  top_sub : forall k, k ∈ kws -> k ∈ ws;
  top_length : length kws = Nat.min n (size (list_to_set ws : gset str));
  top_sorted : StronglySorted (ranks_before ws) kws;
  top_rest : forall w k, w ∈ ws -> w ∉ kws -> k ∈ kws -> ranks_before ws k w;
}.



(** Word-overlap ratio of the fallback. *)
Definition word_set (s : str) : gset str := list_to_set (split (lower s)).
Definition overlap_ratio (expected submitted : str) : float :=
  if bool_decide (size (word_set expected) = 0) then 0%Q
  else (float_of_nat (size (word_set expected ∩ word_set submitted))
        / float_of_nat (size (word_set expected)))%Q.

(** The similarity engine returns cosines of vectors with non-negative
    entries. *)
Definition cosine_in_range {V} (engine : str -> str -> method V float) : Prop :=
  forall expected submitted v x v',
    engine expected submitted v = (Return x, v') -> (0 <= x)%Q /\ (x <= 1)%Q.



#[global] Instance Qle_decision (x y : Q) : Decision (x <= y)%Q.
Proof.
  destruct (Qlt_le_dec y x) as [H|H]; [right|left; exact H].
  now apply Qlt_not_le.
Defined.

#[global] Instance Qlt_decision (x y : Q) : Decision (x < y)%Q.
Proof.
  destruct (Qlt_le_dec x y) as [H|H]; [left; exact H|right].
  now apply Qle_not_lt.
Defined.

(** The overall comment of the detailed feedback. *)
Definition tier_comment (combined : float) : str :=
  if decide (8 # 10 <= combined)%Q then "Excellent comprehensive answer!"
  else if decide (6 # 10 <= combined)%Q then "Good answer with room for improvement."
  else "Your answer needs significant improvement.".

(** A clause of the detailed feedback: present when [P] holds, and then
    separated from what precedes it by one space. *)
Definition clause (P : Prop) `{Decision P} (text : str) : str :=
  if decide P then " " ++ text else empty.

End Spec.

(** ** A stand-in similarity engine

    It instantiates the parameters where a concrete engine is needed.  The
    vectorizer remembers how often it was fitted; the engine reports an
    empty vocabulary (the [ValueError] of scikit-learn) unless the two texts
    are equal, in which case the similarity is 1. *)

Definition toy_vectorizer : Type := nat.

Definition toy_fit_transform_cosine (expected submitted : Py.str)
  : method toy_vectorizer float :=
  fun fitted =>
    if bool_decide (expected = submitted) then (Return 1%Q, S fitted)
    else (Raise (Exception "ValueError" "empty vocabulary; perhaps the documents only contain stop words"),
          S fitted).

(** Questions used in the examples. *)

Definition mcq_question : Question :=
  {| question_type := "MCQ";
     question_text := "Which option names the process plants use to make sugar?";
     marks := {| hundredths := 200 |};
     expected_answer := "B";
     grading_criteria := ∅ |}.

Definition short_question : Question :=
  {| question_type := "SHORT";
     question_text := "What does photosynthesis produce?";
     marks := {| hundredths := 1000 |};
     expected_answer := "Plants produce glucose and oxygen";
     grading_criteria := {[ "keywords" := ["glucose"; "oxygen"; "light"] ]} |}.

Definition essay_question : Question :=
  {| question_type := "ESSAY";
     question_text := "Discuss the causes of the industrial revolution.";
     marks := {| hundredths := 2000 |};
     expected_answer := "Coal, capital and trade made the machines pay; trade grew and coal was cheap";
     grading_criteria := ∅ |}.

Definition oral_question : Question :=
  {| question_type := "ORAL";
     question_text := "Explain your project.";
     marks := {| hundredths := 500 |};
     expected_answer := "the project grades answers";
     grading_criteria := ∅ |}.

Definition empty_keyword_question : Question :=
  {| question_type := "SHORT";
     question_text := "Name one noble gas.";
     marks := {| hundredths := 300 |};
     expected_answer := "argon";
     grading_criteria := {[ "keywords" := [Py.empty] ]} |}.

(** An outcome that raises an exception of class [cls]. *)
Definition raises {A} (o : outcome A) (cls : Py.str) : Prop :=
  exists msg, o = Raise (Exception cls msg).

(** ** The callers of the grading service

    The model classes [Exam], [Submission] and [Answer] with the fields the
    grading reads or writes, the methods of [Submission], and
    [SubmissionViewSet._grade_submission].

    An attribute holding a number holds a [float] when the view has
    assigned it the score returned by the grader, and a [Decimal] when it
    comes from the database; arithmetic on [Decimal]s is exact in the model
    (the precision of the decimal context is not modelled).  [save] stores
    the attributes of an object in its table row, under its primary key;
    the conversions of the database layer are not modelled. *)

Inductive number : Type :=
| PyFloat (x : float)
| PyDecimal (x : Q).

(** The value of a number; comparisons between floats and Decimals compare
    values. *)
Definition number_value (n : number) : Q :=
  match n with PyFloat x => x | PyDecimal x => x end.

Definition decimal_value (d : Decimal) : Q := hundredths d # 100.

Definition TypeError (msg : Py.str) : exception := Exception "TypeError" msg.

(** [n / d] for a [Decimal] [d] that is not zero: defined between Decimals
    only. *)
Definition truediv_Decimal (n : number) (d : Decimal) : outcome number :=
  match n with
  | PyFloat _ =>
      Raise (TypeError "unsupported operand type(s) for /: 'float' and 'decimal.Decimal'")
  | PyDecimal x =>
      if (hundredths d =? 0)%Z then Raise (Exception "DivisionByZero" "division by zero")
      else Return (PyDecimal (x / decimal_value d)%Q)
  end.

(** [n * k] for an [int] [k] *)
Definition mul_int (n : number) (k : Z) : number :=
  match n with
  | PyFloat x => PyFloat (x * inject_Z k)%Q
  | PyDecimal x => PyDecimal (x * inject_Z k)%Q
  end.

(** The digits of [n], at least [width] of them. *)
Definition zero_padded (width n : nat) : Py.str :=
  let digits := Py.str_of_nat n in
  repeat "0"%char (width - length digits) ++ digits.

(** [f"{x:.2f}"] for a number: two decimal places, ties to even, the sign
    of a negative number kept. *)
Definition fixed2 (x : Q) : Py.str :=
  let magnitude := if Qle_bool 0 x then x else (- x)%Q in
  let n := Z.to_nat (round_half_even (magnitude * 100)) in
  (if Qle_bool 0 x then Py.empty else "-")
  ++ Py.str_of_nat (n / 100) ++ "." ++ zero_padded 2 (n mod 100).

(** [f"{x:.2f}"] for an attribute that may be [None] *)
Definition format_2f (x : option number) : outcome Py.str :=
  match x with
  | None => Raise (TypeError "unsupported format string passed to NoneType.__format__")
  | Some n => Return (fixed2 (number_value n))
  end.

Module Exam.

Record t : Type := {
  total_marks : Decimal;
  passing_marks : Decimal;
}.

End Exam.

Module Submission.

Record t : Type := {
  id : nat;
  exam : Exam.t;
  status : Py.str;
  graded_at : option Z;
  total_score : option number;
  percentage : option number;
  grading_feedback : Py.str;
}.

Definition set_status (v : Py.str) (self : t) : t :=
  {| id := id self; exam := exam self; status := v; graded_at := graded_at self;
     total_score := total_score self; percentage := percentage self;
     grading_feedback := grading_feedback self |}.

Definition set_graded_at (v : option Z) (self : t) : t :=
  {| id := id self; exam := exam self; status := status self; graded_at := v;
     total_score := total_score self; percentage := percentage self;
     grading_feedback := grading_feedback self |}.

Definition set_total_score (v : option number) (self : t) : t :=
  {| id := id self; exam := exam self; status := status self;
     graded_at := graded_at self; total_score := v; percentage := percentage self;
     grading_feedback := grading_feedback self |}.

Definition set_percentage (v : option number) (self : t) : t :=
  {| id := id self; exam := exam self; status := status self;
     graded_at := graded_at self; total_score := total_score self; percentage := v;
     grading_feedback := grading_feedback self |}.

Definition set_grading_feedback (v : Py.str) (self : t) : t :=
  {| id := id self; exam := exam self; status := status self;
     graded_at := graded_at self; total_score := total_score self;
     percentage := percentage self; grading_feedback := v |}.

(** [Submission.calculate_percentage] *)
Definition calculate_percentage : method t (option number) :=
  fun self =>
    match total_score self with
    | Some score =>
        if (0 <? hundredths (Exam.total_marks (exam self)))%Z then
          match truediv_Decimal score (Exam.total_marks (exam self)) with
          | Return ratio =>
              let self' := set_percentage (Some (mul_int ratio 100)) self in
              (Return (percentage self'), self')
          | Raise e => (Raise e, self)
          end
        else (Return None, self)
    | None => (Return None, self)
    end.

(** [Submission.is_passed] *)
Definition is_passed (self : t) : option bool :=
  match total_score self with
  | Some score =>
      Some (Qle_bool (decimal_value (Exam.passing_marks (exam self))) (number_value score))
  | None => None
  end.

End Submission.

Module Answer.

Record t : Type := {
  id : nat;
  question : Question;
  answer_text : Py.str;
  score : option number;
  feedback : Py.str;
  is_correct : option bool;
  grading_metadata : list (Py.str * meta_value);
}.

End Answer.

(** [answer] after the four assignments of the grading loop *)
Definition with_grading_result (answer : Answer.t) (grading_result : GradingResult)
  : Answer.t :=
  {| Answer.id := Answer.id answer;
     Answer.question := Answer.question answer;
     Answer.answer_text := Answer.answer_text answer;
     Answer.score := Some (PyFloat (score grading_result));
     Answer.feedback := feedback grading_result;
     Answer.is_correct := Some (is_correct grading_result);
     Answer.grading_metadata := metadata grading_result |}.

(** What [_grade_submission] works on: its two arguments, which it mutates,
    and the two tables it saves them to. *)
Record heap : Type := {
  submission : Submission.t;
  answers : list Answer.t;
  submissions_table : gmap nat Submission.t;
  answers_table : gmap nat Answer.t;
}.

(** An assignment to attributes of [submission] *)
Definition update_submission (f : Submission.t -> Submission.t) : method heap unit :=
  fun h =>
    (Return tt,
     {| submission := f (submission h); answers := answers h;
        submissions_table := submissions_table h; answers_table := answers_table h |}).

(** [submission.save()] *)
Definition save_submission : method heap unit :=
  fun h =>
    (Return tt,
     {| submission := submission h; answers := answers h;
        submissions_table :=
          <[Submission.id (submission h) := submission h]> (submissions_table h);
        answers_table := answers_table h |}).

(** The assignments to the [i]-th answer followed by [answer.save()] *)
Definition store_answer (i : nat) (answer : Answer.t) : method heap unit :=
  fun h =>
    (Return tt,
     {| submission := submission h; answers := <[i := answer]> (answers h);
        submissions_table := submissions_table h;
        answers_table := <[Answer.id answer := answer]> (answers_table h) |}).

(** A method of [submission] called from [_grade_submission] *)
Definition on_submission {A} (m : method Submission.t A) : method heap A :=
  fun h =>
    let (r, s) := m (submission h) in
    (r,
     {| submission := s; answers := answers h;
        submissions_table := submissions_table h; answers_table := answers_table h |}).

(** [try: body except Exception as e: handler] *)
Definition try_except_as {S A} (body : method S A) (handler : exception -> method S A)
  : method S A :=
  fun self =>
    match body self with
    | (Return a, self') => (Return a, self')
    | (Raise e, self') => handler e self'
    end.

Section SubmissionViewSet.

Import Py.

Variable vectorizer : Type.
Variable fit_transform_cosine : str -> str -> method vectorizer float.
Variable TfidfVectorizer : vectorizer.

(** [timezone.now()] at the time [_grade_submission] asks for it *)
Variable now : Z.

(** The loop [for answer in answers] of [_grade_submission], from the
    [i]-th answer on, [n] answers being left; it yields [total_score]. *)
Fixpoint grade_each (n i : nat) (grading_service : BaseGradingService vectorizer)
         (total_score : float) : method heap float :=
  match n with
  | 0 => ret total_score
  | S n' =>
      fun h =>
        match answers h !! i with
        | None => (Return total_score, h)
        | Some answer =>
            match service_grade_answer fit_transform_cosine
                    (Answer.question answer) (Answer.answer_text answer)
                    grading_service with
            | (Raise e, _) => (Raise e, h)
            | (Return grading_result, grading_service') =>
                (do _ <- store_answer i (with_grading_result answer grading_result);
                 grade_each n' (S i) grading_service'
                            (total_score + score grading_result)%Q) h
            end
        end
  end.

(** [SubmissionViewSet._grade_submission] *)
Definition _grade_submission : method heap unit :=
  do _ <- update_submission (Submission.set_status "GRADING");
  do _ <- save_submission;
  let grading_service := get_grading_service TfidfVectorizer (Some "mock") in
  let total_score := 0%Q in
  do total_score <-
    (fun h => grade_each (length (answers h)) 0 grading_service total_score h);
  do _ <- update_submission (Submission.set_total_score (Some (PyFloat total_score)));
  do _ <- on_submission Submission.calculate_percentage;
  do _ <- update_submission (Submission.set_status "GRADED");
  do _ <- update_submission (Submission.set_graded_at (Some now));
  do passed <- (fun h => ret (Submission.is_passed (submission h)) h);
  do grading_feedback <-
    (fun h =>
       if default false passed then
         lift (match format_2f (Submission.percentage (submission h)) with
               | Return p => Return ("Congratulations! You passed with " ++ p ++ "%")
               | Raise e => Raise e
               end) h
       else
         lift (match format_2f (Submission.percentage (submission h)) with
               | Return p => Return ("You scored " ++ p ++ "%. Keep practicing!")
               | Raise e => Raise e
               end) h);
  do _ <- update_submission (Submission.set_grading_feedback grading_feedback);
  save_submission.

(** The grading step of [SubmissionViewSet.create]:
    [try: self._grade_submission(submission, answers)] with its handler. *)
Definition create_grading_step : method heap unit :=
  try_except_as _grade_submission
    (fun e =>
       do _ <- update_submission (Submission.set_status "FAILED");
       do _ <- update_submission
                 (Submission.set_grading_feedback ("Grading error: " ++ exc_msg e));
       save_submission).

End SubmissionViewSet.

Arguments grade_each {vectorizer} fit_transform_cosine n i grading_service total_score.
Arguments _grade_submission {vectorizer} fit_transform_cosine TfidfVectorizer now.
Arguments create_grading_step {vectorizer} fit_transform_cosine TfidfVectorizer now.

(** [answer'] is [answer] after the mock service has graded it. *)
Definition graded_by_mock {V} (engine : Py.str -> Py.str -> method V float)
           (answer answer' : Answer.t) : Prop :=
  exists v v' r,
    grade_answer engine (Answer.question answer) (Answer.answer_text answer) v
      = (Return r, v') /\
    answer' = with_grading_result answer r.

(** The score of an answer as a number, 0 while it has none. *)
Definition score_value (answer : Answer.t) : Q :=
  match Answer.score answer with
  | Some n => number_value n
  | None => 0%Q
  end.

(** The running total of the grading loop once it has graded [graded]. *)
Definition add_scores (graded : list Answer.t) (total : float) : float :=
  fold_left (fun t answer => (t + score_value answer)%Q) graded total.

(** The answers table once each of [graded] has been saved in turn. *)
Definition save_all (graded : list Answer.t) (table : gmap nat Answer.t)
  : gmap nat Answer.t :=
  fold_left (fun tbl answer => <[Answer.id answer := answer]> tbl) graded table.

(** The marks of the questions answered. *)
Definition marks_available (answers : list Answer.t) : Q :=
  foldr (fun answer acc => (float_of_Decimal (marks (Answer.question answer)) + acc)%Q)
        0%Q answers.



(** ** The validation of a submission *)

Definition ValidationError (msg : Py.str) : exception := Exception "ValidationError" msg.

(** The validated data of [SubmissionCreateSerializer]: the exam and, for
    each answer, the question and the text. *)
Record submission_data : Type := {
  exam_id : Z;
  submitted_answers : list (Z * Py.str);
}.

Section SubmissionCreateSerializer.

Import Py.

(** The ids of the questions of an exam, as the query in [validate] returns
    them, and the text Python prints for a set of ids. *)
Variable questions_of_exam : Z -> list Z.
Variable repr_set : gset Z -> str.

(** [SubmissionCreateSerializer.validate_answers] *)
Definition validate_answers (value : list (Z * str)) : outcome (list (Z * str)) :=
  if is_empty value then Raise (ValidationError "At least one answer is required")
  else Return value.

(** [SubmissionCreateSerializer.validate] *)
Definition validate (data : submission_data) : outcome submission_data :=
  let exam_id := exam_id data in
  let answers := submitted_answers data in
  let exam_questions := questions_of_exam exam_id in
  let submitted_question_ids := map fst answers in
  let invalid_questions : gset Z :=
    list_to_set submitted_question_ids ∖ list_to_set exam_questions in
  if negb (bool_decide (size invalid_questions = 0)) then
    Raise (ValidationError
             ("Questions " ++ repr_set invalid_questions ++ " do not belong to this exam"))
  else if negb (bool_decide (length submitted_question_ids
                             = size (list_to_set submitted_question_ids : gset Z))) then
    Raise (ValidationError "Duplicate question submissions detected")
  else Return data.

End SubmissionCreateSerializer.

(** A submission of two answers, as [create] hands it to the grading. *)

Definition example_exam : Exam.t :=
  {| Exam.total_marks := {| hundredths := 1200 |};
     Exam.passing_marks := {| hundredths := 500 |} |}.

Definition example_submission : Submission.t :=
  {| Submission.id := 7;
     Submission.exam := example_exam;
     Submission.status := "SUBMITTED";
     Submission.graded_at := None;
     Submission.total_score := None;
     Submission.percentage := None;
     Submission.grading_feedback := Py.empty |}.

Definition ungraded (id : nat) (question : Question) (answer_text : Py.str) : Answer.t :=
  {| Answer.id := id;
     Answer.question := question;
     Answer.answer_text := answer_text;
     Answer.score := None;
     Answer.feedback := Py.empty;
     Answer.is_correct := None;
     Answer.grading_metadata := [] |}.

Definition example_heap : heap :=
  {| submission := example_submission;
     answers := [ungraded 1 mcq_question " b "; ungraded 2 short_question "   "];
     submissions_table := {[ 7 := example_submission ]};
     answers_table := ∅ |}.


(** * Properties *)

(** ** Strings *)

Section PyFacts.

Import Py.

Lemma lstrip_nil_iff (s : str) : lstrip s = [] <-> forallb isspace s = true.
Proof.
  induction s as [|c s IH]; simpl; [tauto|].
  destruct (isspace c); simpl; [exact IH|]. split; discriminate.
Qed.

Lemma forallb_isspace_lstrip (s : str) :
  forallb isspace (lstrip s) = forallb isspace s.
Proof.
  induction s as [|c s IH]; simpl; [reflexivity|].
  destruct (isspace c) eqn:E; simpl; [exact IH|]. now rewrite E.
Qed.

Lemma forallb_rev {A} (f : A -> bool) (l : list A) :
  forallb f (rev l) = forallb f l.
Proof.
  induction l as [|x l IH]; simpl; [reflexivity|].
  rewrite forallb_app, IH. simpl. rewrite andb_true_r. apply andb_comm.
Qed.

Lemma strip_nil_iff (s : str) : strip s = [] <-> forallb isspace s = true.
Proof.
  unfold strip, rstrip.
  rewrite <- (forallb_isspace_lstrip s), <- (forallb_rev isspace (lstrip s)).
  rewrite <- lstrip_nil_iff. split; intros H.
  - apply (f_equal (@rev ascii)) in H. now rewrite rev_involutive in H.
  - now rewrite H.
Qed.

Lemma not_strip_blank (s : str) : is_empty (strip s) = true <-> Spec.blank s.
Proof.
  assert (H : forallb isspace s = true <-> Spec.blank s).
  { unfold Spec.blank. induction s as [|c s IH]; simpl.
    - split; [constructor|reflexivity].
    - rewrite andb_true_iff, IH. split.
      + intros [? ?]. now constructor.
      + intros H. inversion H; subst. now split. }
  rewrite <- H, <- strip_nil_iff.
  destruct (strip s); simpl; split; congruence.
Qed.

Lemma startswith_prefix (p s : str) :
  startswith p s = true <-> exists post, s = p ++ post.
Proof.
  revert s. induction p as [|a p IH]; intros s; simpl.
  - split; eauto.
  - destruct s as [|b s].
    + split; [discriminate|]. intros [post H]. discriminate.
    + rewrite andb_true_iff, bool_decide_eq_true, IH. split.
      * intros [-> [post ->]]. eauto.
      * intros [post H]. injection H as -> ->. eauto.
Qed.

Lemma contains_infix (sub s : str) :
  contains sub s = true <-> exists pre post, s = pre ++ sub ++ post.
Proof.
  induction s as [|c s IH]; simpl; rewrite orb_true_iff, startswith_prefix.
  - split.
    + intros [[post H]|H]; [|discriminate]. exists [], post. exact H.
    + intros [pre [post H]]. left. exists post.
      destruct pre; [exact H|discriminate].
  - rewrite IH. split.
    + intros [[post H]|[pre [post H]]].
      * exists [], post. exact H.
      * exists (c :: pre), post. now rewrite H.
    + intros [pre [post H]]. destruct pre as [|c' pre]; simpl in H.
      * left. eauto.
      * right. injection H as -> ->. eauto.
Qed.

Lemma contains_empty (s : str) : contains [] s = true.
Proof. destruct s; reflexivity. Qed.

Lemma contains_lower_ci (sub s : str) :
  contains (lower sub) (lower s) = true <-> Spec.ci_substring sub s.
Proof.
  rewrite contains_infix. unfold Spec.ci_substring, lower. split.
  - intros [pre [post H]].
    apply map_eq_app in H as [s1 [s23 [-> [<- H]]]].
    apply map_eq_app in H as [s2 [s3 [-> [H <-]]]].
    exists s1, s2, s3. split; [reflexivity|exact H].
  - intros [pre [mid [post [-> H]]]].
    exists (map lower_char pre), (map lower_char post).
    now rewrite !map_app, H.
Qed.

End PyFacts.

(** ** The regular expression finds the alphabetic words *)

Section ReFacts.

Import Py Re.

Lemma isalpha_is_word (c : ascii) : isalpha c = true -> is_word c = true.
Proof. unfold is_word. intros ->. reflexivity. Qed.

Lemma runs_from_app (P : ascii -> bool) (w rest cur : str) :
  forallb P w = true ->
  Spec.runs_from P cur (w ++ rest) = Spec.runs_from P (cur ++ w) rest.
Proof.
  revert cur. induction w as [|c w IH]; intros cur H; simpl in *.
  - now rewrite app_nil_r.
  - apply andb_true_iff in H as [Hc Hw]. rewrite Hc, IH by exact Hw.
    now rewrite <- app_assoc.
Qed.

(** Once a run has started, what is already read only matters for the first
    run that is reported. *)
Lemma runs_from_started (P : ascii -> bool) (cur : str) (s : str) :
  cur <> [] ->
  exists w, Spec.runs_from P cur s = (cur ++ w) :: tail (Spec.runs_from P [Ascii.zero] s)
            /\ forallb P w = true.
Proof.
  revert cur. induction s as [|c s IH]; intros cur Hcur; simpl.
  - exists []. rewrite app_nil_r. destruct cur; [congruence|]. now split.
  - destruct (P c) eqn:E.
    + destruct (IH (cur ++ [c])) as [w [-> Hw]]; [now destruct cur|].
      destruct (IH [Ascii.zero; c]) as [w' [-> _]]; [discriminate|].
      exists (c :: w). simpl. rewrite E, Hw, <- app_assoc. now split.
    + exists []. rewrite app_nil_r. destruct cur; [congruence|]. now split.
Qed.

Lemma split_word_run (s : str) :
  exists w rest, s = w ++ rest /\ forallb is_word w = true /\ word_at (head rest) = false.
Proof.
  induction s as [|c s (w & rest & -> & Hw & Hr)].
  - exists [], []. now repeat split.
  - destruct (is_word c) eqn:E.
    + exists (c :: w), rest. simpl. rewrite E, Hw. now repeat split.
    + exists [], (c :: w ++ rest). simpl. now repeat split.
Qed.

Lemma run_length_le (w rest : str) :
  word_at (head rest) = false -> run_length (w ++ rest) <= length w.
Proof.
  intros Hr. induction w as [|c w IH]; simpl.
  - destruct rest as [|c rest]; simpl in *; [lia|].
    destruct (isalpha c) eqn:E; [|lia].
    apply isalpha_is_word in E. congruence.
  - destruct (isalpha c); lia.
Qed.

Lemma run_length_ge (w rest : str) :
  forallb isalpha w = true <-> length w <= run_length (w ++ rest).
Proof.
  induction w as [|c w IH]; simpl.
  - split; [lia|reflexivity].
  - destruct (isalpha c); simpl; [rewrite IH; lia|].
    split; [discriminate|lia].
Qed.

Lemma give_back_none (s : str) (k tries : nat) :
  (forall j, 1 <= j <= k -> boundary (s !! (j - 1)) (s !! j) = false) ->
  give_back s k tries = None.
Proof.
  revert k. induction tries as [|t IH]; intros k H; simpl; [reflexivity|].
  destruct (Nat.eq_dec k 0) as [->|Hk].
  - simpl. unfold boundary. rewrite xorb_nilpotent. apply IH. intros j Hj. lia.
  - rewrite H by lia. apply IH. intros j Hj. apply H. lia.
Qed.

Lemma word_at_inside (w rest : str) (j : nat) :
  forallb is_word w = true -> j < length w -> word_at ((w ++ rest) !! j) = true.
Proof.
  intros Hw Hj. rewrite lookup_app_l by exact Hj.
  destruct (lookup_lt_is_Some_2 w j Hj) as [c Hc]. rewrite Hc. simpl.
  rewrite forallb_forall in Hw. apply Hw.
  apply list_elem_of_In. eapply list_elem_of_lookup_2, Hc.
Qed.

(** At the start of a word the expression matches exactly the whole word,
    provided the word is alphabetic and long enough. *)
Lemma match_here_start (prev : option ascii) (w rest : str) :
  word_at prev = false ->
  forallb is_word w = true ->
  word_at (head rest) = false ->
  match_here prev (w ++ rest) =
    if Spec.long_alpha w then Some (length w) else None.
Proof.
  intros Hp Hw Hr. unfold match_here, Spec.long_alpha, boundary. rewrite Hp.
  destruct w as [|c w].
  - simpl. now rewrite Hr.
  - replace (word_at (head ((c :: w) ++ rest))) with true
      by (simpl in *; apply andb_true_iff in Hw as [-> _]; reflexivity).
    cbn [xorb].
    pose proof (run_length_le (c :: w) rest Hr) as Hle.
    pose proof (run_length_ge (c :: w) rest) as Hge.
    set (s := (c :: w) ++ rest) in *.
    set (n := run_length s) in *.
    destruct (Nat.eq_dec n (length (c :: w))) as [Hn|Hn].
    + assert (Ha : forallb isalpha (c :: w) = true) by (apply Hge; lia).
      rewrite Ha, <- Hn. cbn [andb].
      destruct (4 <=? n) eqn:E4; [|reflexivity].
      apply Nat.leb_le in E4.
      destruct (n - 3) as [|t] eqn:Et; [lia|]. cbn [give_back].
      replace (boundary (s !! (n - 1)) (s !! n)) with true; [reflexivity|].
      unfold boundary, s. rewrite word_at_inside by (auto; lia).
      rewrite lookup_app_r by lia. replace (n - length (c :: w)) with 0 by lia.
      rewrite <- head_lookup, Hr. reflexivity.
    + assert (Ha : forallb isalpha (c :: w) = false).
      { apply not_true_is_false. intros E. apply Hge in E. lia. }
      rewrite Ha. cbn [andb].
      rewrite give_back_none; [now destruct (4 <=? n)|].
      intros j Hj. unfold boundary, s.
      rewrite !word_at_inside by (auto; lia). reflexivity.
Qed.

(** Inside a word, or right behind one, nothing matches. *)
Lemma match_here_inside (p : ascii) (s : str) :
  is_word p = true -> match_here (Some p) s = None.
Proof.
  intros Hp. unfold match_here, boundary. simpl. rewrite Hp.
  destruct s as [|c s]; simpl; [reflexivity|].
  destruct (is_word c) eqn:E; simpl; [reflexivity|].
  destruct (isalpha c) eqn:Ea; [|reflexivity].
  apply isalpha_is_word in Ea. congruence.
Qed.

Lemma last_word_char (w : str) :
  w <> [] -> forallb is_word w = true ->
  exists p, last w = Some p /\ is_word p = true.
Proof.
  intros Hne Hw. destruct (last w) as [p|] eqn:E.
  - exists p. split; [reflexivity|].
    rewrite forallb_forall in Hw. apply Hw, list_elem_of_In.
    rewrite last_lookup in E. eapply list_elem_of_lookup_2, E.
  - apply last_None in E. congruence.
Qed.

Lemma findall_from_words (n : nat) :
  forall (s : str) (fuel : nat) (prev : option ascii),
    length s <= n -> length s < fuel ->
    (word_at prev = false ->
     findall_from fuel prev s = Spec.alphabetic_words s) /\
    (forall p, prev = Some p -> is_word p = true ->
     findall_from fuel prev s =
       List.filter Spec.long_alpha (tail (Spec.runs_from is_word [Ascii.zero] s))).
Proof.
  induction n as [n IH] using lt_wf_ind.
  intros s fuel prev Hn Hfuel.
  destruct fuel as [|fuel]; [lia|].
  split.
  - intros Hp. unfold Spec.alphabetic_words, Spec.words.
    destruct (split_word_run s) as (w & rest & -> & Hw & Hr).
    cbn [findall_from]. rewrite match_here_start by assumption.
    rewrite runs_from_app by exact Hw. cbn [app].
    destruct w as [|c w].
    + (* the text starts with a separator, or is empty *)
      cbn [Spec.long_alpha forallb length Nat.leb andb app].
      destruct rest as [|c rest]; [reflexivity|].
      simpl in Hr. simpl. rewrite Hr.
      rewrite length_app in Hn, Hfuel. simpl in Hn, Hfuel.
      destruct (IH (length rest) ltac:(lia) rest fuel (Some c) ltac:(lia) ltac:(lia))
        as [H _].
      rewrite H by exact Hr. reflexivity.
    + destruct (runs_from_started is_word (c :: w) rest ltac:(discriminate))
        as (w' & Hruns & Hw').
      assert (Hw'nil : w' = []).
      { destruct rest as [|c' rest]; simpl in Hruns.
        - injection Hruns as Hruns. destruct w'; [reflexivity|].
          apply (f_equal (@length ascii)) in Hruns.
          rewrite length_app in Hruns. simpl in Hruns. lia.
        - simpl in Hr. rewrite Hr in Hruns. injection Hruns as Hruns.
          destruct w'; [reflexivity|].
          apply (f_equal (@length ascii)) in Hruns.
          rewrite length_app in Hruns. simpl in Hruns. lia. }
      subst w'. rewrite app_nil_r in Hruns. rewrite Hruns.
      cbn [List.filter].
      rewrite length_app in Hn, Hfuel. cbn [length] in Hn, Hfuel.
      destruct (Spec.long_alpha (c :: w)) eqn:El.
      * rewrite take_app_length, drop_app_length.
        destruct (last_word_char (c :: w) ltac:(discriminate) Hw) as (p & -> & Hp').
        destruct (IH (length rest) ltac:(lia) rest fuel (Some p) ltac:(lia) ltac:(lia))
          as [_ H].
        now rewrite (H p eq_refl Hp').
      * cbn [app]. simpl in Hw. apply andb_true_iff in Hw as [Hc Hw].
        destruct (IH (length (w ++ rest)) ltac:(rewrite length_app; lia)
                    (w ++ rest) fuel (Some c) ltac:(lia)
                    ltac:(rewrite length_app; lia)) as [_ H].
        rewrite (H c eq_refl Hc).
        rewrite (runs_from_app is_word w rest [Ascii.zero] Hw).
        destruct (runs_from_started is_word ([Ascii.zero] ++ w) rest ltac:(discriminate))
          as (w1 & -> & _).
        reflexivity.
  - intros p -> Hp. cbn [findall_from]. rewrite match_here_inside by exact Hp.
    destruct s as [|c s]; [reflexivity|].
    simpl in Hn, Hfuel. cbn [Spec.runs_from].
    destruct (is_word c) eqn:E.
    + destruct (IH (length s) ltac:(lia) s fuel (Some c) ltac:(lia) ltac:(lia))
        as [_ H].
      rewrite (H c eq_refl E).
      destruct (runs_from_started is_word ([Ascii.zero] ++ [c]) s ltac:(discriminate))
        as (w1 & -> & _).
      reflexivity.
    + destruct (IH (length s) ltac:(lia) s fuel (Some c) ltac:(lia) ltac:(lia))
        as [H _].
      cbn [tail]. apply H. exact E.
Qed.

(** [re.findall(r"\b[a-zA-Z]{4,}\b", s)] returns the alphabetic words of
    length at least four of [s], in order. *)
Lemma findall_alphabetic_words (s : str) : findall s = Spec.alphabetic_words s.
Proof.
  unfold findall.
  apply (findall_from_words (length s) s (S (length s)) None); [lia|lia|reflexivity].
Qed.

End ReFacts.

(** ** Counting and ranking the words *)

Section DictFacts.

Import Py.

Lemma dict_get_set_eq {V} (d : Dict.dict V) (k : str) (v dflt : V) :
  Dict.get (Dict.set d k v) k dflt = v.
Proof.
  induction d as [|[k' v'] d IH]; simpl.
  - now rewrite bool_decide_eq_true_2.
  - destruct (bool_decide (k' = k)) eqn:E; simpl; rewrite E; auto.
Qed.

Lemma dict_get_set_ne {V} (d : Dict.dict V) (k k' : str) (v dflt : V) :
  k <> k' -> Dict.get (Dict.set d k v) k' dflt = Dict.get d k' dflt.
Proof.
  intros Hne. induction d as [|[k0 v0] d IH]; simpl.
  - now rewrite bool_decide_eq_false_2.
  - destruct (bool_decide (k0 = k)) eqn:E; simpl.
    + apply bool_decide_eq_true in E. subst k0.
      now rewrite bool_decide_eq_false_2.
    + now rewrite IH.
Qed.

Lemma dict_keys_set {V} (d : Dict.dict V) (k : str) (v : V) :
  map fst (Dict.set d k v) =
    if decide (k ∈ map fst d) then map fst d else map fst d ++ [k].
Proof.
  induction d as [|[k' v'] d IH]; simpl.
  - destruct (decide (k ∈ [])) as [H|_]; [inversion H|reflexivity].
  - destruct (bool_decide (k' = k)) eqn:E; simpl.
    + apply bool_decide_eq_true in E. subst k'.
      destruct (decide (k ∈ k :: map fst d)) as [_|H]; [reflexivity|].
      exfalso. apply H. left.
    + apply bool_decide_eq_false in E. rewrite IH.
      destruct (decide (k ∈ map fst d)) as [H|H];
        destruct (decide (k ∈ k' :: map fst d)) as [H'|H']; try reflexivity.
      * exfalso. apply H'. now right.
      * exfalso. apply H. inversion H'; subst; congruence.
Qed.

Lemma dict_get_entry {V} (d : Dict.dict V) (k : str) (v dflt : V) :
  NoDup (map fst d) -> (k, v) ∈ d -> Dict.get d k dflt = v.
Proof.
  induction d as [|[k' v'] d IH]; simpl; intros Hnd Hin.
  - inversion Hin.
  - apply NoDup_cons in Hnd as [Hk' Hnd].
    apply elem_of_cons in Hin as [Heq|Hin].
    + injection Heq as <- <-. now rewrite bool_decide_eq_true_2.
    + rewrite bool_decide_eq_false_2; [auto|].
      intros ->. apply Hk'. apply list_elem_of_fmap. now exists (k, v).
Qed.

Lemma count_words_snoc (ws : list str) (w : str) :
  count_words (ws ++ [w]) =
    Dict.set (count_words ws) w (Dict.get (count_words ws) w 0 + 1).
Proof. unfold count_words. now rewrite fold_left_app. Qed.

Lemma frequency_snoc (ws : list str) (w k : str) :
  Spec.frequency (ws ++ [w]) k =
    Spec.frequency ws k + (if decide (w = k) then 1 else 0).
Proof.
  unfold Spec.frequency. rewrite filter_app, length_app. f_equal.
  rewrite filter_cons, filter_nil. now destruct (decide (w = k)).
Qed.

Lemma count_words_get (ws : list str) (k : str) :
  Dict.get (count_words ws) k 0 = Spec.frequency ws k.
Proof.
  induction ws as [|w ws IH] using rev_ind; [reflexivity|].
  rewrite count_words_snoc, frequency_snoc.
  destruct (decide (w = k)) as [->|Hne].
  - now rewrite dict_get_set_eq, IH.
  - rewrite dict_get_set_ne by exact Hne. rewrite IH. lia.
Qed.

Lemma count_words_keys_snoc (ws : list str) (w : str) :
  map fst (count_words (ws ++ [w])) =
    if decide (w ∈ map fst (count_words ws)) then map fst (count_words ws)
    else map fst (count_words ws) ++ [w].
Proof. rewrite count_words_snoc. apply dict_keys_set. Qed.

Lemma count_words_keys_elem (ws : list str) (k : str) :
  k ∈ map fst (count_words ws) <-> k ∈ ws.
Proof.
  induction ws as [|w ws IH] using rev_ind; [reflexivity|].
  rewrite count_words_keys_snoc, elem_of_app, list_elem_of_singleton.
  destruct (decide (w ∈ map fst (count_words ws))) as [H|H].
  - rewrite IH. split; [tauto|]. intros [?| ->]; [assumption|]. now apply IH.
  - rewrite elem_of_app, list_elem_of_singleton, IH. tauto.
Qed.

Lemma count_words_keys_nodup (ws : list str) : NoDup (map fst (count_words ws)).
Proof.
  induction ws as [|w ws IH] using rev_ind; [constructor|].
  rewrite count_words_keys_snoc.
  destruct (decide (w ∈ map fst (count_words ws))) as [H|H]; [exact IH|].
  apply NoDup_app. repeat split; [exact IH| |apply NoDup_singleton].
  intros x Hx Hx'. apply list_elem_of_singleton in Hx'. congruence.
Qed.

Lemma count_words_entry (ws : list str) (k : str) (v : nat) :
  (k, v) ∈ count_words ws -> v = Spec.frequency ws k.
Proof.
  intros H. rewrite <- count_words_get.
  symmetry. apply dict_get_entry; [apply count_words_keys_nodup|exact H].
Qed.

Lemma count_words_length (ws : list str) :
  length (count_words ws) = size (list_to_set ws : gset str).
Proof.
  rewrite <- (length_map fst (count_words ws)).
  rewrite <- (size_list_to_set (C := gset str)) by apply count_words_keys_nodup.
  f_equal. apply set_eq. intros k.
  rewrite !elem_of_list_to_set. apply count_words_keys_elem.
Qed.

Lemma seen_before_snoc (ws : list str) (w a b : str) :
  Spec.seen_before ws a b -> Spec.seen_before (ws ++ [w]) a b.
Proof.
  intros (l1 & l2 & -> & Ha & Hb & Hab).
  exists l1, (l2 ++ [w]). rewrite <- app_assoc. now repeat split.
Qed.

Lemma seen_before_fresh (ws : list str) (a b : str) :
  a ∈ ws -> b ∉ ws -> Spec.seen_before (ws ++ [b]) a b.
Proof.
  intros Ha Hb.
  apply list_elem_of_split_l in Ha as (l1 & l2 & -> & Ha).
  exists l1, (l2 ++ [b]). rewrite <- app_assoc. repeat split; [assumption| |].
  - intros H. apply Hb. apply elem_of_app. now left.
  - intros ->. apply Hb. apply elem_of_app. right. left.
Qed.

(** The dictionary lists the words in the order they are first seen. *)
Lemma count_words_order (ws : list str) (a b : str) :
  Spec.occurs_before (map fst (count_words ws)) a b -> Spec.seen_before ws a b.
Proof.
  induction ws as [|w ws IH] using rev_ind.
  - intros (l1 & l2 & H & _). destruct l1; discriminate.
  - rewrite count_words_keys_snoc.
    destruct (decide (w ∈ map fst (count_words ws))) as [Hw|Hw].
    + intros H. apply seen_before_snoc, IH, H.
    + intros (l1 & l2 & H & Hb).
      destruct l2 as [|c l2 _] using rev_ind; [inversion Hb|].
      change (a :: l2 ++ [c]) with ((a :: l2) ++ [c]) in H.
      rewrite app_assoc in H. apply app_inj_tail in H as [H ->].
      apply elem_of_app in Hb as [Hb|Hb].
      * apply seen_before_snoc, IH. exists l1, l2. now split.
      * apply list_elem_of_singleton in Hb. subst b.
        apply seen_before_fresh.
        -- apply count_words_keys_elem. rewrite H.
           apply elem_of_app. right. left.
        -- intros Hin. apply Hw. now apply count_words_keys_elem.
Qed.

Lemma insert_desc_perm {A} (key : A -> nat) (x : A) (l : list A) :
  Dict.insert_desc key x l ≡ₚ x :: l.
Proof.
  induction l as [|y l IH]; simpl; [reflexivity|].
  destruct (key x <? key y); [|reflexivity].
  rewrite IH. apply Permutation_swap.
Qed.

Lemma sorted_desc_perm {A} (key : A -> nat) (l : list A) :
  Dict.sorted_desc key l ≡ₚ l.
Proof.
  induction l as [|x l IH]; simpl; [reflexivity|].
  now rewrite insert_desc_perm, IH.
Qed.

Lemma stable_desc_cons {A} (key : A -> nat) (a : A) (l : list A) (x y : A) :
  Spec.stable_desc key l x y -> Spec.stable_desc key (a :: l) x y.
Proof.
  intros [H|[H (l1 & l2 & -> & Hy)]]; [now left|right].
  split; [exact H|]. now exists (a :: l1), l2.
Qed.

Lemma insert_desc_sorted {A} (key : A -> nat) (a : A) (l sorted : list A) :
  (forall y, y ∈ sorted -> y ∈ l) ->
  StronglySorted (Spec.stable_desc key (a :: l)) sorted ->
  StronglySorted (Spec.stable_desc key (a :: l)) (Dict.insert_desc key a sorted).
Proof.
  intros Hsub Hs. induction sorted as [|y sorted IH]; simpl.
  - repeat constructor.
  - apply StronglySorted_cons in Hs as [Hy Hs].
    destruct (key a <? key y) eqn:E.
    + apply Nat.ltb_lt in E. constructor.
      * apply IH; [|exact Hs]. intros z Hz. apply Hsub. now right.
      * rewrite insert_desc_perm. constructor; [now left|exact Hy].
    + apply Nat.ltb_ge in E. constructor.
      * now constructor.
      * assert (Hall : Forall (fun z => key z <= key a) (y :: sorted)).
        { constructor; [exact E|].
          eapply Forall_impl; [exact Hy|]. intros z [Hz|[Hz _]]; simpl in *; lia. }
        apply Forall_forall. intros z Hz.
        rewrite Forall_forall in Hall. specialize (Hall z Hz).
        destruct (Nat.eq_dec (key z) (key a)) as [Heq|Hne].
        -- right. split; [lia|]. exists [], l. split; [reflexivity|].
           now apply Hsub.
        -- left. lia.
Qed.

(** [sorted] with [reverse=True] is a stable sort by decreasing key. *)
Lemma sorted_desc_sorted {A} (key : A -> nat) (l : list A) :
  StronglySorted (Spec.stable_desc key l) (Dict.sorted_desc key l).
Proof.
  induction l as [|a l IH]; simpl; [constructor|].
  apply insert_desc_sorted.
  - intros y Hy. now rewrite sorted_desc_perm in Hy.
  - clear -IH. induction IH as [|x s Hs IHs Hx]; constructor; [exact IHs|].
    eapply Forall_impl; [exact Hx|]. intros z. apply stable_desc_cons.
Qed.

Lemma StronglySorted_map_in {A B} (R1 : relation A) (R2 : relation B)
      (f : A -> B) (l : list A) :
  (forall x y, x ∈ l -> y ∈ l -> R1 x y -> R2 (f x) (f y)) ->
  StronglySorted R1 l -> StronglySorted R2 (map f l).
Proof.
  intros Hf Hs. induction Hs as [|x l Hs IH Hx]; simpl; constructor.
  - apply IH. intros a b Ha Hb. apply Hf; now right.
  - apply Forall_map, Forall_forall. intros y Hy.
    apply Hf; [left|now right|].
    rewrite Forall_forall in Hx. now apply Hx.
Qed.

Lemma occurs_before_map {A B} (f : A -> B) (l : list A) (x y : A) :
  Spec.occurs_before l x y -> Spec.occurs_before (map f l) (f x) (f y).
Proof.
  intros (l1 & l2 & -> & Hy). exists (map f l1), (map f l2).
  rewrite map_app. split; [reflexivity|].
  apply list_elem_of_fmap. now exists y.
Qed.

(** The ranking of the dictionary entries is the ranking of the words. *)
Lemma entries_rank (ws : list str) (x y : str * nat) :
  x ∈ count_words ws -> y ∈ count_words ws ->
  Spec.stable_desc snd (count_words ws) x y ->
  Spec.ranks_before ws (fst x) (fst y).
Proof.
  destruct x as [a n], y as [b m]. intros Hx Hy.
  apply count_words_entry in Hx, Hy. subst n m. simpl.
  intros [H|[H Hb]]; [now left|right]. split; [exact H|].
  apply count_words_order. apply (occurs_before_map fst) in Hb. exact Hb.
Qed.

(** [_extract_keywords] keeps the [top_n] most frequent words found by the
    regular expression, ranked by frequency and then by first occurrence. *)
Lemma extract_keywords_top (text : str) (top_n : nat) :
  Spec.top_words top_n (Spec.alphabetic_words (lower text))
                 (_extract_keywords text top_n).
Proof.
  unfold _extract_keywords. rewrite findall_alphabetic_words.
  set (ws := Spec.alphabetic_words (lower text)).
  set (d := count_words ws).
  set (sorted := Dict.sorted_desc snd d).
  assert (Hperm : sorted ≡ₚ d) by apply sorted_desc_perm.
  assert (Hsorted : StronglySorted (Spec.stable_desc snd d) sorted)
    by apply sorted_desc_sorted.
  assert (Hnd : NoDup (map fst sorted)).
  { assert (Hk : map fst sorted ≡ₚ map fst d) by (apply Permutation_map, Hperm).
    rewrite Hk. apply count_words_keys_nodup. }
  rewrite <- (take_drop top_n sorted) in Hsorted, Hnd.
  assert (Hin : forall x, x ∈ take top_n sorted -> x ∈ d).
  { intros x Hx. rewrite <- Hperm, <- (take_drop top_n sorted).
    apply elem_of_app. now left. }
  split.
  - rewrite map_app in Hnd. now apply NoDup_app in Hnd as [Hnd _].
  - intros k Hk. apply list_elem_of_fmap in Hk as ([k' v] & -> & Hk).
    apply count_words_keys_elem. apply list_elem_of_fmap.
    exists (k', v). split; [reflexivity|]. now apply Hin.
  - rewrite length_map, length_take, <- (count_words_length ws).
    fold d. now rewrite Hperm.
  - apply StronglySorted_app_1_l in Hsorted.
    eapply StronglySorted_map_in; [|exact Hsorted].
    intros x y Hx Hy. apply entries_rank; now apply Hin.
  - intros w k Hw Hnot Hk.
    apply list_elem_of_fmap in Hk as (x & -> & Hx).
    apply count_words_keys_elem in Hw. fold d in Hw.
    apply list_elem_of_fmap in Hw as (y & -> & Hy).
    rewrite <- Hperm, <- (take_drop top_n sorted) in Hy.
    apply elem_of_app in Hy as [Hy|Hy].
    + exfalso. apply Hnot. apply list_elem_of_fmap. now exists y.
    + apply entries_rank; [now apply Hin| |].
      * change (y ∈ d).
        rewrite <- Hperm, <- (take_drop top_n sorted). apply elem_of_app. now right.
      * eapply StronglySorted_app_1_elem_of; eauto.
Qed.

End DictFacts.

(** ** Rounding and the sub-scores *)

Section NumberFacts.

Import Py.

Lemma round_half_even_le (x : Q) (k : Z) :
  (x <= inject_Z k)%Q -> (round_half_even x <= k)%Z.
Proof.
  intros Hx. unfold round_half_even.
  pose proof (Qfloor_le x) as Hf.
  assert (Hfk : (Qfloor x <= k)%Z).
  { rewrite <- (Qfloor_Z k). now apply Qfloor_resp_le. }
  assert (Hup : (1 # 2 <= x - inject_Z (Qfloor x))%Q -> (Qfloor x + 1 <= k)%Z).
  { intros Hh. assert (Hlt : (inject_Z (Qfloor x) < inject_Z k)%Q) by lra.
    rewrite <- Zlt_Qlt in Hlt. lia. }
  destruct (Qcompare_spec (x - inject_Z (Qfloor x)) (1 # 2)) as [He|Hl|Hg].
  - destruct (Z.even (Qfloor x)); [exact Hfk|]. apply Hup. rewrite He. lra.
  - exact Hfk.
  - apply Hup. lra.
Qed.

Lemma round_half_even_ge (x : Q) (k : Z) :
  (inject_Z k <= x)%Q -> (k <= round_half_even x)%Z.
Proof.
  intros Hx. unfold round_half_even.
  assert (Hfk : (k <= Qfloor x)%Z).
  { rewrite <- (Qfloor_Z k). now apply Qfloor_resp_le. }
  destruct (Qcompare (x - inject_Z (Qfloor x)) (1 # 2));
    [destruct (Z.even (Qfloor x))| |]; lia.
Qed.

Lemma hundredths_le (a b : Z) : (a <= b)%Z -> (a # 100 <= b # 100)%Q.
Proof. intros H. unfold Qle. simpl. lia. Qed.

(** Rounding to two places keeps a value between 0 and a bound that has two
    decimal places. *)
Lemma round2_bounds (x : float) (m : Z) :
  (0 <= x)%Q -> (x <= m # 100)%Q ->
  (0 <= round2 x)%Q /\ (round2 x <= m # 100)%Q.
Proof.
  intros H0 Hm. unfold round2. split.
  - assert (Hr : (0 <= round_half_even (x * 100))%Z).
    { apply round_half_even_ge. change (inject_Z 0) with 0%Q. lra. }
    unfold Qle. simpl. lia.
  - apply hundredths_le. apply round_half_even_le.
    assert (Hq : (m # 100 == inject_Z m * (1 # 100))%Q).
    { unfold Qeq. simpl. lia. }
    rewrite Hq in Hm. lra.
Qed.

Lemma ge_true_iff (x y : float) : ge x y = true <-> (y <= x)%Q.
Proof. unfold ge. apply Qle_bool_iff. Qed.

Lemma ge_false_iff (x y : float) : ge x y = false <-> (x < y)%Q.
Proof.
  rewrite <- not_true_iff_false, ge_true_iff. split.
  - apply Qnot_le_lt.
  - apply Qlt_not_le.
Qed.

Lemma lt_true_iff (x y : float) : lt x y = true <-> (x < y)%Q.
Proof. unfold lt. rewrite negb_true_iff. apply (ge_false_iff x y). Qed.

Lemma lt_false_iff (x y : float) : lt x y = false <-> (y <= x)%Q.
Proof. unfold lt. rewrite negb_false_iff. apply (ge_true_iff x y). Qed.

Lemma truediv_unit (a b : nat) :
  a <= b -> b <> 0 ->
  truediv a b = Return (float_of_nat a / float_of_nat b)%Q /\
  (0 <= float_of_nat a / float_of_nat b)%Q /\
  (float_of_nat a / float_of_nat b <= 1)%Q.
Proof.
  intros Hab Hb. destruct b as [|b]; [congruence|]. split; [reflexivity|].
  unfold float_of_nat.
  assert (H0 : (0 <= inject_Z (Z.of_nat a))%Q).
  { change 0%Q with (inject_Z 0). rewrite <- Zle_Qle. lia. }
  assert (H1 : (inject_Z (Z.of_nat a) <= inject_Z (Z.of_nat (S b)))%Q).
  { rewrite <- Zle_Qle. lia. }
  assert (H2 : (0 < inject_Z (Z.of_nat (S b)))%Q).
  { change 0%Q with (inject_Z 0). rewrite <- Zlt_Qlt. lia. }
  split.
  - apply Qle_shift_div_l; [exact H2|]. lra.
  - apply Qle_shift_div_r; [exact H2|]. lra.
Qed.

Lemma filter_length_le {A} (P : A -> Prop) `{forall x, Decision (P x)} (l : list A) :
  length (filter P l) <= length l.
Proof.
  induction l as [|x l IH]; [reflexivity|].
  rewrite filter_cons. destruct (decide (P x)); simpl; lia.
Qed.

(** The keyword score is always defined and lies between 0 and 1. *)
Lemma keyword_score_unit (q : Question) (a : str) :
  exists k, _calculate_keyword_score q a = Return k /\ (0 <= k)%Q /\ (k <= 1)%Q.
Proof.
  unfold _calculate_keyword_score.
  remember (if is_empty (default [] (grading_criteria q !! "keywords"))
            then _extract_keywords (expected_answer q) 5
            else default [] (grading_criteria q !! "keywords")) as keywords eqn:E.
  clear E. destruct keywords as [|kw kws]; cbn [is_empty].
  - exists (1 # 2)%Q. split; [reflexivity|]. split; lra.
  - destruct (truediv_unit
                (length (filter (fun kw => contains (lower kw) (lower a) = true) (kw :: kws)))
                (length (kw :: kws))) as (-> & H0 & H1).
    + apply filter_length_le.
    + discriminate.
    + eexists. split; [reflexivity|]. split; assumption.
Qed.

(** The word-overlap fallback is always defined, is the overlap ratio of
    the specification, and lies between 0 and 1. *)
Lemma word_overlap_ratio (expected submitted : str) :
  word_overlap expected submitted = Return (Spec.overlap_ratio expected submitted) /\
  (0 <= Spec.overlap_ratio expected submitted)%Q /\
  (Spec.overlap_ratio expected submitted <= 1)%Q.
Proof.
  unfold word_overlap, Spec.overlap_ratio, Spec.word_set.
  set (E := list_to_set (split (lower expected)) : gset str).
  set (S := list_to_set (split (lower submitted)) : gset str).
  destruct (bool_decide (size E = 0)) eqn:Hz.
  - split; [reflexivity|]. split; lra.
  - apply bool_decide_eq_false in Hz.
    destruct (truediv_unit (size (E ∩ S)) (size E)) as (-> & H0 & H1).
    + apply subseteq_size, intersection_subseteq_l.
    + exact Hz.
    + split; [reflexivity|]. split; assumption.
Qed.

End NumberFacts.

(** ** The grader *)

Section GraderFacts.

Import Py.

Context {vectorizer : Type}.
Variable fit_transform_cosine : str -> str -> method vectorizer float.
Variable TfidfVectorizer : vectorizer.

(** [_calculate_similarity] always returns: a failure of the engine is
    replaced by the word overlap. *)
Lemma similarity_cases (expected submitted : str) (v : vectorizer) :
  (is_empty (strip expected) || is_empty (strip submitted) = true /\
   _calculate_similarity fit_transform_cosine expected submitted v = (Return 0%Q, v)) \/
  (is_empty (strip expected) || is_empty (strip submitted) = false /\
   exists x v', fit_transform_cosine expected submitted v = (Return x, v') /\
     _calculate_similarity fit_transform_cosine expected submitted v = (Return x, v')) \/
  (is_empty (strip expected) || is_empty (strip submitted) = false /\
   exists e v', fit_transform_cosine expected submitted v = (Raise e, v') /\
     _calculate_similarity fit_transform_cosine expected submitted v =
       (Return (Spec.overlap_ratio expected submitted), v')).
Proof.
  unfold _calculate_similarity.
  destruct (is_empty (strip expected) || is_empty (strip submitted)).
  - left. now split.
  - right. unfold try_except, lift.
    destruct (fit_transform_cosine expected submitted v) as [[x|e] v'] eqn:E.
    + left. split; [reflexivity|]. now exists x, v'.
    + right. split; [reflexivity|]. exists e, v'. split; [reflexivity|].
      now destruct (word_overlap_ratio expected submitted) as [-> _].
Qed.

Lemma similarity_returns (expected submitted : str) (v : vectorizer) :
  exists x v',
    _calculate_similarity fit_transform_cosine expected submitted v = (Return x, v').
Proof.
  destruct (similarity_cases expected submitted v)
    as [[_ H]|[[_ (x & v' & _ & H)]|[_ (e & v' & _ & H)]]]; eauto.
Qed.

Lemma similarity_unit (expected submitted : str) (v : vectorizer) :
  Spec.cosine_in_range fit_transform_cosine ->
  exists x v',
    _calculate_similarity fit_transform_cosine expected submitted v = (Return x, v') /\
    (0 <= x)%Q /\ (x <= 1)%Q.
Proof.
  intros Hrange.
  destruct (similarity_cases expected submitted v)
    as [[_ H]|[[_ (x & v' & Hx & H)]|[_ (e & v' & _ & H)]]].
  - exists 0%Q, v. split; [exact H|]. split; lra.
  - exists x, v'. split; [exact H|]. eapply Hrange, Hx.
  - eexists _, v'. split; [exact H|].
    now destruct (word_overlap_ratio expected submitted) as (_ & ? & ?).
Qed.

(** What the exact-match strategy returns. *)
Lemma grade_mcq_result (q : Question) (a : str) (v : vectorizer) :
  _grade_mcq q a v =
    (Return {| score := if bool_decide (_normalize_text (expected_answer q) = _normalize_text a)
                        then float_of_Decimal (marks q) else 0%Q;
               feedback := if bool_decide (_normalize_text (expected_answer q) = _normalize_text a)
                           then "Correct answer!"
                           else "Incorrect. Expected: " ++ expected_answer q;
               is_correct := bool_decide (_normalize_text (expected_answer q) = _normalize_text a);
               metadata := [("grading_method", MStr "exact_match");
                            ("expected", MStr (_normalize_text (expected_answer q)));
                            ("submitted", MStr (_normalize_text a))] |}, v).
Proof. reflexivity. Qed.

(** What the keyword-similarity strategy returns, given its sub-scores. *)
Lemma grade_short_result (q : Question) (a : str) (v v' : vectorizer)
      (keyword similarity : float) :
  _calculate_keyword_score q a = Return keyword ->
  _calculate_similarity fit_transform_cosine (expected_answer q) a v
    = (Return similarity, v') ->
  _grade_short_answer fit_transform_cosine q a v =
    (Return
       {| score := round2 (float_of_Decimal (marks q)
                           * ((6 # 10) * keyword + (4 # 10) * similarity))%Q;
          feedback := _generate_feedback ((6 # 10) * keyword + (4 # 10) * similarity)%Q
                                         keyword similarity;
          is_correct := ge ((6 # 10) * keyword + (4 # 10) * similarity)%Q (7 # 10);
          metadata := [("grading_method", MStr "keyword_similarity");
                       ("keyword_score", MFloat (round2 keyword));
                       ("similarity_score", MFloat (round2 similarity));
                       ("combined_score",
                        MFloat (round2 ((6 # 10) * keyword + (4 # 10) * similarity)%Q))] |},
     v').
Proof.
  intros Hk Hs. unfold _grade_short_answer, bind, lift. now rewrite Hk, Hs.
Qed.

(** What the comprehensive strategy returns, given its sub-scores. *)
Lemma grade_long_result (q : Question) (a : str) (v v' : vectorizer)
      (keyword similarity : float) :
  _calculate_keyword_score q a = Return keyword ->
  _calculate_similarity fit_transform_cosine (expected_answer q) a v
    = (Return similarity, v') ->
  let length_score := _calculate_length_score a in
  let combined :=
    ((3 # 10) * length_score + (3 # 10) * keyword + (4 # 10) * similarity)%Q in
  _grade_long_answer fit_transform_cosine q a v =
    (Return
       {| score := round2 (float_of_Decimal (marks q) * combined)%Q;
          feedback := _generate_detailed_feedback combined length_score keyword similarity a;
          is_correct := ge combined (6 # 10);
          metadata := [("grading_method", MStr "comprehensive");
                       ("length_score", MFloat (round2 length_score));
                       ("keyword_score", MFloat (round2 keyword));
                       ("similarity_score", MFloat (round2 similarity));
                       ("combined_score", MFloat (round2 combined));
                       ("word_count", MInt (length (split a)))] |},
     v').
Proof.
  intros Hk Hs. unfold _grade_long_answer, bind, lift. now rewrite Hk, Hs.
Qed.

(** The dispatch of [grade_answer]. *)
Lemma grade_answer_mcq (q : Question) (a : str) :
  question_type q = "MCQ" \/ question_type q = "TRUE_FALSE" ->
  grade_answer fit_transform_cosine q a = _grade_mcq q a.
Proof.
  intros [H|H]; unfold grade_answer; rewrite H; reflexivity.
Qed.

Lemma grade_answer_short (q : Question) (a : str) :
  question_type q = "SHORT" ->
  grade_answer fit_transform_cosine q a = _grade_short_answer fit_transform_cosine q a.
Proof. intros H. unfold grade_answer. rewrite H. reflexivity. Qed.

Lemma grade_answer_other (q : Question) (a : str) :
  question_type q <> "MCQ" -> question_type q <> "TRUE_FALSE" ->
  question_type q <> "SHORT" ->
  grade_answer fit_transform_cosine q a = _grade_long_answer fit_transform_cosine q a.
Proof.
  intros H1 H2 H3. unfold grade_answer.
  now rewrite !bool_decide_eq_false_2 by assumption.
Qed.

Lemma grade_answer_cases (q : Question) (a : str) :
  grade_answer fit_transform_cosine q a = _grade_mcq q a \/
  grade_answer fit_transform_cosine q a = _grade_short_answer fit_transform_cosine q a \/
  grade_answer fit_transform_cosine q a = _grade_long_answer fit_transform_cosine q a.
Proof.
  unfold grade_answer.
  destruct (bool_decide _ || bool_decide _); [now left|].
  destruct (bool_decide _); [right; now left|right; now right].
Qed.

(** [grade_answer] returns a result whatever the question, the answer and
    the behaviour of the similarity engine. *)
Lemma grade_answer_returns (q : Question) (a : str) (v : vectorizer) :
  exists r v', grade_answer fit_transform_cosine q a v = (Return r, v').
Proof.
  destruct (keyword_score_unit q a) as (k & Hk & _).
  destruct (similarity_returns (expected_answer q) a v) as (x & v' & Hx).
  destruct (grade_answer_cases q a) as [->|[->| ->]].
  - rewrite grade_mcq_result. eauto.
  - rewrite (grade_short_result q a v v' k x Hk Hx). eauto.
  - rewrite (grade_long_result q a v v' k x Hk Hx). eauto.
Qed.

Lemma join_cons_app (sep p : str) (rest : list str) :
  join sep (p :: rest) = p ++ concat (map (fun x => sep ++ x) rest).
Proof.
  revert p. induction rest as [|p' rest IH]; intros p.
  - simpl. now rewrite app_nil_r.
  - change (join sep (p :: p' :: rest)) with (p ++ sep ++ join sep (p' :: rest)).
    rewrite (IH p'). cbn [map concat]. now rewrite <- app_assoc.
Qed.

(** The detailed feedback is the overall comment followed by the clauses
    that apply, each after a single space. *)
Lemma detailed_feedback_clauses (combined len keyword similarity : float) (a : str) :
  _generate_detailed_feedback combined len keyword similarity a =
    Spec.tier_comment combined
    ++ Spec.clause (len < 6 # 10)%Q
         ("Consider expanding your answer (current: "
          ++ str_of_nat (length (split a)) ++ " words).")
    ++ Spec.clause (keyword < 5 # 10)%Q "Include more key concepts from the topic."
    ++ Spec.clause (similarity < 4 # 10)%Q
         "Your answer could align better with the expected content.".
Proof.
  unfold _generate_detailed_feedback, Spec.tier_comment, Spec.clause.
  assert (Hge : forall x y, ge x y = if decide (y <= x)%Q then true else false).
  { intros x y. destruct (decide (y <= x)%Q) as [H|H].
    - now apply ge_true_iff.
    - apply ge_false_iff. now apply Qnot_le_lt. }
  assert (Hlt : forall x y, lt x y = if decide (x < y)%Q then true else false).
  { intros x y. destruct (decide (x < y)%Q) as [H|H].
    - now apply lt_true_iff.
    - apply lt_false_iff. now apply Qnot_lt_le. }
  rewrite !Hge, !Hlt.
  destruct (decide (8 # 10 <= combined)%Q), (decide (6 # 10 <= combined)%Q),
    (decide (len < 6 # 10)%Q), (decide (keyword < 5 # 10)%Q),
    (decide (similarity < 4 # 10)%Q);
    cbn [app]; rewrite join_cons_app; cbn [map concat app];
    rewrite ?app_nil_r, <- ?app_assoc; reflexivity.
Qed.

Lemma detailed_feedback_nonempty (combined len keyword similarity : float) (a : str) :
  _generate_detailed_feedback combined len keyword similarity a <> [].
Proof.
  rewrite detailed_feedback_clauses. unfold Spec.tier_comment.
  destruct (decide _); [discriminate|]. destruct (decide _); discriminate.
Qed.

Lemma feedback_nonempty (combined keyword similarity : float) :
  _generate_feedback combined keyword similarity <> [].
Proof.
  unfold _generate_feedback.
  destruct (ge combined (9 # 10)); [discriminate|].
  destruct (ge combined (7 # 10)); [discriminate|].
  destruct (ge combined (5 # 10)); discriminate.
Qed.

Lemma length_score_unit (a : str) :
  (0 <= _calculate_length_score a)%Q /\ (_calculate_length_score a <= 1)%Q.
Proof.
  unfold _calculate_length_score.
  destruct (_ <? 50); [split; lra|].
  destruct (_ <? 100); [split; lra|].
  destruct (_ <? 200); split; lra.
Qed.

Lemma scaled_score_bounds (m : Z) (c : float) :
  (0 <= m)%Z -> (0 <= c)%Q -> (c <= 1)%Q ->
  (0 <= round2 ((m # 100) * c)%Q)%Q /\ (round2 ((m # 100) * c)%Q <= m # 100)%Q.
Proof.
  intros Hm H0 H1.
  assert (Hq : (0 <= m # 100)%Q) by (unfold Qle; simpl; lia).
  apply round2_bounds; nra.
Qed.

End GraderFacts.

(** * The claims of the specification *)

Section Claims.

Import Py.

Context {vectorizer : Type}.
Variable fit_transform_cosine : str -> str -> method vectorizer float.
Variable TfidfVectorizer : vectorizer.

(** C1, as the code has it: a question whose type is none of MCQ,
    TRUE_FALSE and SHORT, so in particular one whose type is not among the
    five supported ones, is graded by the comprehensive strategy;
    [grade_answer] returns that result and raises nothing, in particular no
    [ConfigurationError]. *)
Theorem C1_unsupported_type_graded_as_long (q : Question) (a : str) (v : vectorizer) :
  question_type q ∉ Spec.supported_types ->
  grade_answer fit_transform_cosine q a v
    = _grade_long_answer fit_transform_cosine q a v /\
  exists r v', grade_answer fit_transform_cosine q a v = (Return r, v') /\
               In ("grading_method", MStr "comprehensive") (metadata r).
Proof.
  intros Hty. unfold Spec.supported_types in Hty.
  assert (H : grade_answer fit_transform_cosine q a
              = _grade_long_answer fit_transform_cosine q a).
  { apply grade_answer_other; intros E; apply Hty; rewrite E;
      repeat (try (left; fail); right). }
  rewrite H. split; [reflexivity|].
  destruct (keyword_score_unit q a) as (k & Hk & _).
  destruct (similarity_returns fit_transform_cosine (expected_answer q) a v)
    as (x & v' & Hx).
  rewrite (grade_long_result fit_transform_cosine q a v v' k x Hk Hx).
  eexists _, v'. split; [reflexivity|]. left. reflexivity.
Qed.







(** C7: an MCQ or TRUE_FALSE question is graded by comparing the stripped
    and upper-cased texts: on equality the score is the marks and the
    feedback "Correct answer!", otherwise the score is 0 and the feedback
    quotes the reference answer as it was given.  With the reference "B",
    the answers "b", " B " and "B" are correct and "A" is not. *)
Theorem C7_exact_match (q : Question) (a : str) (v : vectorizer) :
  question_type q = "MCQ" \/ question_type q = "TRUE_FALSE" ->
  exists r,
    grade_answer fit_transform_cosine q a v = (Return r, v) /\
    (is_correct r = true <-> upper (strip (expected_answer q)) = upper (strip a)) /\
    (is_correct r = true ->
     score r = float_of_Decimal (marks q) /\ feedback r = "Correct answer!") /\
    (is_correct r = false ->
     score r = 0%Q /\ feedback r = "Incorrect. Expected: " ++ expected_answer q) /\
    (expected_answer q = "B" ->
     (a = "b" \/ a = " B " \/ a = "B" ->
      is_correct r = true /\ score r = float_of_Decimal (marks q)) /\
     (a = "A" -> is_correct r = false /\ score r = 0%Q)).
Proof.
  intros Hty. rewrite (grade_answer_mcq fit_transform_cosine q a Hty).
  rewrite grade_mcq_result. eexists. split; [reflexivity|].
  cbn [score is_correct feedback]. unfold _normalize_text.
  split; [apply bool_decide_eq_true|].
  split; [intros ->; now split|].
  split; [intros ->; now split|].
  intros ->. split.
  - intros [-> |[-> | ->]]; now split.
  - intros ->. now split.
Qed.

(** C8: the factory returns the mock grader for "mock", for a call without
    argument and for every string other than "llm"; for "llm" it returns an
    LLM grader.  An LLM grader can be built from any key and model, and its
    [grade_answer] raises [NotImplementedError] on every input. *)
Theorem C8_factory :
  get_grading_service TfidfVectorizer (Some "mock")
    = Mock (MockGradingService_init TfidfVectorizer) /\
  get_grading_service TfidfVectorizer None
    = Mock (MockGradingService_init TfidfVectorizer) /\
  (forall kind : str, kind <> "llm" ->
     get_grading_service TfidfVectorizer (Some kind)
       = Mock (MockGradingService_init TfidfVectorizer)) /\
  get_grading_service TfidfVectorizer (Some "llm")
    = LLM (LLMGradingService_init None None) /\
  (forall key model q a,
     let llm := LLMGradingService_init key model in
     llm_grade_answer q a llm
       = (Raise (NotImplementedError "LLM grading service not implemented"), llm) /\
     service_grade_answer fit_transform_cosine q a (LLM llm)
       = (Raise (NotImplementedError "LLM grading service not implemented"), LLM llm)).
Proof.
  repeat split.
  intros kind Hkind. unfold get_grading_service. cbn [default from_option id].
  repeat case_bool_decide; congruence.
Qed.




Lemma filter_length_mono {A} (P Q : A -> Prop)
      `{forall x, Decision (P x)} `{forall x, Decision (Q x)} (l : list A) :
  (forall x, P x -> Q x) -> length (filter P l) <= length (filter Q l).
Proof.
  intros HPQ. induction l as [|x l IH]; [reflexivity|].
  rewrite !filter_cons.
  destruct (decide (P x)) as [Hp|Hp], (decide (Q x)) as [Hq|Hq]; simpl; try lia.
  exfalso. auto.
Qed.

(** C10: an empty keyword occurs in every answer, the empty one included.
    With configured keywords the score is [matched / total] where
    [matched] is at least the number of empty keywords, and with the single
    configured keyword being the empty string the score is 1 for every
    answer. *)
Theorem C10_empty_keyword_always_matches (q : Question) (a : str) :
  contains (lower empty) (lower a) = true /\
  (forall kws, grading_criteria q !! "keywords" = Some kws -> kws <> [] ->
     exists matched,
       _calculate_keyword_score q a
         = Return (float_of_nat matched / float_of_nat (length kws))%Q /\
       Spec.frequency kws empty <= matched) /\
  (grading_criteria q !! "keywords" = Some [empty] ->
   _calculate_keyword_score q a = Return 1%Q).
Proof.
  split; [apply contains_empty|]. split.
  - intros kws Hkws Hne. unfold _calculate_keyword_score. rewrite Hkws.
    cbn [default from_option id].
    destruct kws as [|kw kws]; [congruence|]. cbn [is_empty].
    eexists. split; [reflexivity|].
    unfold Spec.frequency. apply filter_length_mono.
    intros x ->. apply contains_empty.
  - intros Hkws. unfold _calculate_keyword_score. rewrite Hkws.
    cbn [default from_option id is_empty]. rewrite filter_cons, filter_nil.
    destruct (decide (contains (lower empty) (lower a) = true)) as [_|H];
      [reflexivity|].
    exfalso. apply H, contains_empty.
Qed.

End Claims.

(** * Examples *)

Section Examples.

Import Py.

Example strip_upper_example : _normalize_text "  b " = "B".
Proof. reflexivity. Qed.

Example split_example : split "  hello  world foo " = ["hello"; "world"; "foo"].
Proof. reflexivity. Qed.

Example findall_example :
  Re.findall "the quick fox_9 test1 abcd, hello! 9lives over-time"
  = ["quick"; "abcd"; "hello"; "over"; "time"].
Proof. reflexivity. Qed.

Example sorted_desc_example :
  Dict.sorted_desc snd [("a", 1); ("b", 3); ("c", 1); ("d", 3); ("e", 2)]
  = [("b", 3); ("d", 3); ("e", 2); ("a", 1); ("c", 1)].
Proof. reflexivity. Qed.

Example extract_keywords_example :
  _extract_keywords (expected_answer essay_question) 5
  = ["coal"; "trade"; "capital"; "made"; "machines"].
Proof. reflexivity. Qed.

Example round2_example :
  round2 (125 # 1000) = (12 # 100)%Q /\ round2 (375 # 1000) = (38 # 100)%Q /\
  round2 (6667 # 1000) = (667 # 100)%Q.
Proof. repeat split. Qed.

Example mcq_example :
  grade_answer toy_fit_transform_cosine mcq_question " b " 0
  = (Return {| score := (200 # 100)%Q;
               feedback := "Correct answer!";
               is_correct := true;
               metadata := [("grading_method", MStr "exact_match");
                            ("expected", MStr "B");
                            ("submitted", MStr "B")] |}, 0).
Proof. vm_compute. reflexivity. Qed.

Example blank_short_example :
  grade_answer toy_fit_transform_cosine short_question "   " 0
  = (Return {| score := (0 # 100)%Q;
               feedback := "Your answer needs improvement. Please review the key concepts.";
               is_correct := false;
               metadata := [("grading_method", MStr "keyword_similarity");
                            ("keyword_score", MFloat (0 # 100));
                            ("similarity_score", MFloat (0 # 100));
                            ("combined_score", MFloat (0 # 100))] |}, 0).
Proof. vm_compute. reflexivity. Qed.

Lemma toy_cosine_in_range : Spec.cosine_in_range toy_fit_transform_cosine.
Proof.
  intros expected submitted v x v' H. unfold toy_fit_transform_cosine in H.
  destruct (bool_decide (expected = submitted)); [|discriminate].
  injection H as <- _. split; discriminate.
Qed.


(** C1 fails on the code: the question type "ORAL" is none of the five
    supported types, yet [grade_answer] raises no [ConfigurationError]; it
    returns the result of the comprehensive strategy.  The answer is blank,
    so the similarity engine is not consulted. *)
Lemma C1_counterexample :
  (question_type oral_question ∉ Spec.supported_types) /\
  ~ raises (fst (grade_answer toy_fit_transform_cosine oral_question " " 0))
      "ConfigurationError" /\
  grade_answer toy_fit_transform_cosine oral_question " " 0
  = (Return {| score := (45 # 100)%Q;
               feedback := "Your answer needs significant improvement. Consider expanding your answer (current: 0 words). Include more key concepts from the topic. Your answer could align better with the expected content.";
               is_correct := false;
               metadata := [("grading_method", MStr "comprehensive");
                            ("length_score", MFloat (30 # 100));
                            ("keyword_score", MFloat (0 # 100));
                            ("similarity_score", MFloat (0 # 100));
                            ("combined_score", MFloat (9 # 100));
                            ("word_count", MInt 0)] |}, 0).
Proof.
  split; [|split].
  - apply (bool_decide_unpack _). vm_compute. exact I.
  - intros [msg H]. vm_compute in H. discriminate H.
  - vm_compute. reflexivity.
Qed.

Lemma C1_witness :
  (question_type oral_question ∉ Spec.supported_types) /\
  grade_answer toy_fit_transform_cosine oral_question "It grades the answers" 0
  = _grade_long_answer toy_fit_transform_cosine oral_question "It grades the answers" 0.
Proof.
  assert (H : question_type oral_question ∉ Spec.supported_types).
  { apply (bool_decide_unpack _). vm_compute. exact I. }
  split; [exact H|].
  exact (proj1 (C1_unsupported_type_graded_as_long toy_fit_transform_cosine
                  oral_question "It grades the answers" 0 H)).
Defined.






Lemma C7_witness :
  (question_type mcq_question = "MCQ" \/ question_type mcq_question = "TRUE_FALSE") /\
  expected_answer mcq_question = "B" /\
  exists r,
    grade_answer toy_fit_transform_cosine mcq_question " B " 0 = (Return r, 0) /\
    is_correct r = true /\ score r = (200 # 100)%Q.
Proof.
  split; [left; reflexivity|]. split; [reflexivity|].
  destruct (C7_exact_match toy_fit_transform_cosine mcq_question " B " 0
              (or_introl eq_refl)) as (r & H & _ & _ & _ & Hb).
  exists r. split; [exact H|].
  exact (proj1 (Hb eq_refl) (or_intror (or_introl eq_refl))).
Defined.

Lemma C8_witness :
  ("gpt" : str) <> "llm" /\
  get_grading_service (0 : toy_vectorizer) (Some "gpt") = Mock (MockGradingService_init 0).
Proof.
  assert (H : ("gpt" : str) <> "llm") by discriminate.
  split; [exact H|].
  destruct (C8_factory toy_fit_transform_cosine 0) as (_ & _ & Hother & _).
  exact (Hother "gpt" H).
Defined.


Lemma C10_witness :
  grading_criteria empty_keyword_question !! ("keywords" : str) = Some [empty] /\
  _calculate_keyword_score empty_keyword_question empty = Return 1%Q.
Proof.
  assert (H : grading_criteria empty_keyword_question !! ("keywords" : str) = Some [empty])
    by reflexivity.
  split; [exact H|].
  exact (proj2 (proj2 (C10_empty_keyword_always_matches empty_keyword_question empty)) H).
Defined.

End Examples.

(** * Further properties of the grading service *)

Section StripFacts.

Import Py.















Lemma lower_lower_char (c : ascii) : lower_char (lower_char c) = lower_char c.
Proof. destruct c as [[] [] [] [] [] [] [] []]; reflexivity. Qed.

Lemma isupper_lower_char (c : ascii) : isupper (lower_char c) = false.
Proof. destruct c as [[] [] [] [] [] [] [] []]; reflexivity. Qed.




(** [s.split()] finds no word exactly in blank texts. *)
Lemma split_from_nonempty (word s : str) : word <> [] -> split_from word s <> [].
Proof.
  revert word. induction s as [|c s IH]; intros word Hw; simpl.
  - destruct word; congruence.
  - destruct (isspace c).
    + destruct word; congruence.
    + apply IH. now destruct word.
Qed.

Lemma split_nil_iff (s : str) : split s = [] <-> Spec.blank s.
Proof.
  unfold split. induction s as [|c s IH]; simpl.
  - split; [constructor|reflexivity].
  - destruct (isspace c) eqn:E.
    + rewrite IH. split; [now constructor|]. intros H. now inversion H.
    + split.
      * intros H. now apply split_from_nonempty in H.
      * intros H. inversion H; subst. congruence.
Qed.

End StripFacts.

Section KeywordAndLengthProperties.

Import Py.

(** X4: the length score never decreases when the answer has more words,
    and it is one of 0.3, 0.6, 0.9 and 1. *)
Theorem length_score_monotone (a b : str) :
  length (split a) <= length (split b) ->
  (_calculate_length_score a <= _calculate_length_score b)%Q /\
  In (_calculate_length_score a) [(3 # 10)%Q; (6 # 10)%Q; (9 # 10)%Q; 1%Q].
Proof.
  intros Hab. unfold _calculate_length_score.
  destruct (Nat.ltb_spec (length (split a)) 50),
    (Nat.ltb_spec (length (split a)) 100),
    (Nat.ltb_spec (length (split a)) 200),
    (Nat.ltb_spec (length (split b)) 50),
    (Nat.ltb_spec (length (split b)) 100),
    (Nat.ltb_spec (length (split b)) 200);
    try lia; (split; [lra|simpl; tauto]).
Qed.

Lemma runs_from_infix (P : ascii -> bool) (cur s w : str) :
  w ∈ Spec.runs_from P cur s -> exists pre post, cur ++ s = pre ++ w ++ post.
Proof.
  revert cur. induction s as [|c s IH]; intros cur Hw; simpl in Hw.
  - destruct cur as [|c0 cur]; [inversion Hw|].
    apply list_elem_of_singleton in Hw. subst w.
    exists [], []. now rewrite !app_nil_r.
  - destruct (P c).
    + destruct (IH _ Hw) as (pre & post & H). exists pre, post.
      rewrite <- H, <- app_assoc. reflexivity.
    + destruct cur as [|c0 cur].
      * destruct (IH _ Hw) as (pre & post & H). simpl in H.
        exists (c :: pre), post. simpl. now rewrite H.
      * apply elem_of_cons in Hw as [-> |Hw].
        -- exists [], (c :: s). reflexivity.
        -- destruct (IH _ Hw) as (pre & post & H). simpl in H.
           exists ((c0 :: cur) ++ c :: pre), post.
           rewrite H, <- !app_assoc. reflexivity.
Qed.

Lemma alphabetic_word_facts (s w : str) :
  w ∈ Spec.alphabetic_words s ->
  4 <= length w /\ forallb isalpha w = true /\ contains w s = true.
Proof.
  intros Hw. apply list_elem_of_In in Hw.
  unfold Spec.alphabetic_words in Hw. apply filter_In in Hw as [Hw Hl].
  unfold Spec.long_alpha in Hl. apply andb_true_iff in Hl as [Ha H4].
  apply Nat.leb_le in H4. repeat split; [exact H4|exact Ha|].
  apply contains_infix. apply list_elem_of_In in Hw.
  destruct (runs_from_infix _ _ _ _ Hw) as (pre & post & H). eauto.
Qed.

Lemma lower_infix_lowercase (t w pre post : str) :
  lower t = pre ++ w ++ post -> forallb isalpha w = true ->
  Forall (fun c => islower c = true) w /\ lower w = w.
Proof.
  intros Ht Ha.
  assert (Hall : Forall (fun c => isupper c = false) w).
  { apply Forall_forall. intros c Hc.
    assert (Hin : c ∈ lower t).
    { rewrite Ht. apply elem_of_app. right. apply elem_of_app. now left. }
    apply list_elem_of_fmap in Hin as (c' & -> & _). apply isupper_lower_char. }
  split.
  - rewrite forallb_forall in Ha. apply Forall_forall. intros c Hc.
    rewrite Forall_forall in Hall. specialize (Hall c Hc).
    specialize (Ha c (proj1 (list_elem_of_In _ _) Hc)).
    unfold isalpha in Ha. now rewrite Hall in Ha.
  - unfold lower. rewrite <- (map_id w) at 2. apply map_ext_Forall.
    eapply Forall_impl; [exact Hall|]. intros c Hc. simpl in Hc.
    unfold lower_char. now rewrite Hc.
Qed.

(** X6: the keywords extracted from a text are distinct, at most [top_n],
    and each is a run of at least four lower-case letters that occurs in
    the lower-cased text. *)
Theorem extracted_keywords_wellformed (text : str) (top_n : nat) :
  NoDup (_extract_keywords text top_n) /\
  length (_extract_keywords text top_n) <= top_n /\
  forall k, k ∈ _extract_keywords text top_n ->
    4 <= length k /\
    Forall (fun c => islower c = true) k /\
    contains k (lower text) = true.
Proof.
  destruct (extract_keywords_top text top_n) as [Hnd Hsub Hlen _ _].
  split; [exact Hnd|]. split; [rewrite Hlen; apply Nat.le_min_l|].
  intros k Hk. apply Hsub in Hk.
  destruct (alphabetic_word_facts _ _ Hk) as (H4 & Ha & Hc).
  split; [exact H4|]. split; [|exact Hc].
  apply contains_infix in Hc as (pre & post & Hc).
  now destruct (lower_infix_lowercase _ _ _ _ Hc Ha).
Qed.

Lemma filter_all {A} (P : A -> Prop) `{forall x, Decision (P x)} (l : list A) :
  (forall x, x ∈ l -> P x) -> filter P l = l.
Proof.
  induction l as [|x l IH]; intros Hall; [reflexivity|].
  rewrite filter_cons. destruct (decide (P x)) as [_|Hn].
  - f_equal. apply IH. intros y Hy. apply Hall. now right.
  - exfalso. apply Hn, Hall. left.
Qed.

(** X5: when no keywords are configured, an answer that contains the
    reference answer up to case (the reference answer itself, for one)
    matches every extracted keyword: its keyword score is 1, or the neutral
    0.5 when the reference answer yields no keyword. *)
Theorem reference_answer_matches_extracted_keywords (q : Question) (a : str) :
  default [] (grading_criteria q !! "keywords") = [] ->
  Spec.ci_substring (expected_answer q) a ->
  exists k,
    _calculate_keyword_score q a = Return k /\
    ((_extract_keywords (expected_answer q) 5 = [] /\ k = (1 # 2)%Q) \/
     (_extract_keywords (expected_answer q) 5 <> [] /\ (k == 1)%Q)).
Proof.
  intros Hconf Hsub. unfold _calculate_keyword_score. rewrite Hconf.
  cbn [is_empty].
  assert (Hall : forall kw, kw ∈ _extract_keywords (expected_answer q) 5 ->
                            contains (lower kw) (lower a) = true).
  { intros kw Hkw.
    destruct (extracted_keywords_wellformed (expected_answer q) 5) as (_ & _ & Hwf).
    destruct (Hwf kw Hkw) as (_ & _ & Hc).
    destruct (extract_keywords_top (expected_answer q) 5) as [_ Hin _ _ _].
    destruct (alphabetic_word_facts _ _ (Hin kw Hkw)) as (_ & Ha & _).
    apply contains_infix in Hc as (pre & post & Hc).
    destruct (lower_infix_lowercase _ _ _ _ Hc Ha) as [_ Hlow]. rewrite Hlow.
    apply contains_lower_ci in Hsub. apply contains_infix in Hsub as (p1 & p2 & H).
    apply contains_infix. exists (p1 ++ pre), (post ++ p2).
    rewrite H, Hc, <- !app_assoc. reflexivity. }
  destruct (_extract_keywords (expected_answer q) 5) as [|kw kws] eqn:E;
    cbn [is_empty].
  - exists (1 # 2)%Q. split; [reflexivity|]. now left.
  - rewrite (filter_all _ (kw :: kws) Hall).
    eexists. split; [reflexivity|]. right. split; [discriminate|].
    apply Qmult_inv_r. unfold float_of_nat.
    change 0%Q with (inject_Z 0). rewrite inject_Z_injective. simpl. lia.
Qed.

Lemma round_half_even_near (x : Q) :
  (inject_Z (round_half_even x) - x <= 1 # 2)%Q /\
  (x - inject_Z (round_half_even x) <= 1 # 2)%Q.
Proof.
  unfold round_half_even.
  pose proof (Qfloor_le x) as Hlo. pose proof (Qlt_floor x) as Hhi.
  rewrite inject_Z_plus in Hhi. change (inject_Z 1) with 1%Q in Hhi.
  destruct (Qcompare_spec (x - inject_Z (Qfloor x)) (1 # 2)) as [He|Hl|Hg].
  - destruct (Z.even (Qfloor x)).
    + split; lra.
    + rewrite inject_Z_plus. change (inject_Z 1) with 1%Q. split; lra.
  - split; lra.
  - rewrite inject_Z_plus. change (inject_Z 1) with 1%Q. split; lra.
Qed.

Lemma round2_near (x : float) :
  (round2 x - x <= 1 # 200)%Q /\ (x - round2 x <= 1 # 200)%Q.
Proof.
  unfold round2.
  destruct (round_half_even_near (x * 100)%Q) as [H1 H2].
  assert (Hq : (round_half_even (x * 100) # 100
                == inject_Z (round_half_even (x * 100)) * (1 # 100))%Q).
  { unfold Qeq. simpl. lia. }
  rewrite Hq. split; lra.
Qed.

End KeywordAndLengthProperties.

Section GradingProperties.

Import Py.

Context {vectorizer : Type}.
Variable fit_transform_cosine : str -> str -> method vectorizer float.


Lemma blank_similarity (expected a : str) (v : vectorizer) :
  Spec.blank a ->
  _calculate_similarity fit_transform_cosine expected a v = (Return 0%Q, v).
Proof.
  intros Ha. unfold _calculate_similarity.
  apply not_strip_blank in Ha. rewrite Ha, orb_true_r. reflexivity.
Qed.

Lemma blank_length_score (a : str) :
  Spec.blank a -> _calculate_length_score a = (3 # 10)%Q.
Proof.
  intros Ha. apply split_nil_iff in Ha.
  unfold _calculate_length_score. now rewrite Ha.
Qed.

(** X2: a blank answer to a question that is not graded by exact match is
    never marked correct, whatever keywords are configured and whatever the
    similarity engine would do; the engine is not consulted. *)
Theorem blank_answer_never_correct (q : Question) (a : str) (v : vectorizer) :
  question_type q <> "MCQ" -> question_type q <> "TRUE_FALSE" ->
  Spec.blank a ->
  exists r, grade_answer fit_transform_cosine q a v = (Return r, v) /\
            is_correct r = false.
Proof.
  intros Hm Ht Ha.
  destruct (keyword_score_unit q a) as (k & Hk & Hk0 & Hk1).
  pose proof (blank_similarity (expected_answer q) a v Ha) as Hs.
  destruct (decide (question_type q = "SHORT")) as [Hsh|Hsh].
  - rewrite (grade_answer_short fit_transform_cosine q a Hsh).
    rewrite (grade_short_result fit_transform_cosine q a v v k 0%Q Hk Hs).
    eexists. split; [reflexivity|]. cbn [is_correct].
    apply ge_false_iff. lra.
  - rewrite (grade_answer_other fit_transform_cosine q a Hm Ht Hsh).
    rewrite (grade_long_result fit_transform_cosine q a v v k 0%Q Hk Hs).
    eexists. split; [reflexivity|]. cbn [is_correct].
    apply ge_false_iff. rewrite (blank_length_score a Ha). lra.
Qed.



(** X7: for a question graded by the keyword-similarity or the
    comprehensive strategy and with non-negative marks, an answer marked
    correct earns at least the pass share of the marks (70 percent for
    SHORT, 60 percent otherwise) and an answer marked incorrect earns at
    most that share, both up to the half cent of rounding. *)
Theorem correctness_flag_agrees_with_score (q : Question) (a : str) (v : vectorizer) :
  question_type q <> "MCQ" -> question_type q <> "TRUE_FALSE" ->
  (0 <= hundredths (marks q))%Z ->
  let share := if decide (question_type q = "SHORT") then (7 # 10)%Q else (6 # 10)%Q in
  exists r v',
    grade_answer fit_transform_cosine q a v = (Return r, v') /\
    (is_correct r = true ->
     (share * float_of_Decimal (marks q) - (1 # 200) <= score r)%Q) /\
    (is_correct r = false ->
     (score r <= share * float_of_Decimal (marks q) + (1 # 200))%Q).
Proof.
  intros Hm Ht Hmarks share.
  assert (Hq : (0 <= float_of_Decimal (marks q))%Q)
    by (unfold float_of_Decimal, Qle; simpl; lia).
  destruct (keyword_score_unit q a) as (k & Hk & _).
  destruct (similarity_returns fit_transform_cosine (expected_answer q) a v)
    as (x & v' & Hx).
  unfold share. destruct (decide (question_type q = "SHORT")) as [Hsh|Hsh].
  - rewrite (grade_answer_short fit_transform_cosine q a Hsh).
    rewrite (grade_short_result fit_transform_cosine q a v v' k x Hk Hx).
    eexists _, v'. split; [reflexivity|]. cbn [is_correct score].
    set (c := ((6 # 10) * k + (4 # 10) * x)%Q).
    destruct (round2_near (float_of_Decimal (marks q) * c)%Q) as [H1 H2].
    split; intros Hc; [apply ge_true_iff in Hc|apply ge_false_iff in Hc]; nra.
  - rewrite (grade_answer_other fit_transform_cosine q a Hm Ht Hsh).
    rewrite (grade_long_result fit_transform_cosine q a v v' k x Hk Hx).
    eexists _, v'. split; [reflexivity|]. cbn [is_correct score].
    set (c := ((3 # 10) * _calculate_length_score a + (3 # 10) * k + (4 # 10) * x)%Q).
    destruct (round2_near (float_of_Decimal (marks q) * c)%Q) as [H1 H2].
    split; intros Hc; [apply ge_true_iff in Hc|apply ge_false_iff in Hc]; nra.
Qed.

(** X8: under the comprehensive strategy, with similarities between 0 and
    1, an answer of fewer than 50 words never receives the comment
    "Excellent comprehensive answer!", and its feedback always carries the
    advice to expand the answer right after the overall comment. *)
Theorem short_essay_never_excellent (q : Question) (a : str) (v : vectorizer) :
  Spec.cosine_in_range fit_transform_cosine ->
  question_type q <> "MCQ" -> question_type q <> "TRUE_FALSE" ->
  question_type q <> "SHORT" ->
  length (split a) < 50 ->
  exists r v' comment rest,
    grade_answer fit_transform_cosine q a v = (Return r, v') /\
    feedback r =
      comment
      ++ " Consider expanding your answer (current: "
      ++ str_of_nat (length (split a)) ++ " words)." ++ rest /\
    (comment = "Good answer with room for improvement." \/
     comment = "Your answer needs significant improvement.").
Proof.
  intros Hrange Hm Ht Hsh Hwc.
  destruct (keyword_score_unit q a) as (k & Hk & Hk0 & Hk1).
  destruct (similarity_unit fit_transform_cosine (expected_answer q) a v Hrange)
    as (x & v' & Hx & Hx0 & Hx1).
  rewrite (grade_answer_other fit_transform_cosine q a Hm Ht Hsh).
  rewrite (grade_long_result fit_transform_cosine q a v v' k x Hk Hx).
  assert (Hlen : _calculate_length_score a = (3 # 10)%Q).
  { unfold _calculate_length_score. apply Nat.ltb_lt in Hwc. now rewrite Hwc. }
  set (combined := ((3 # 10) * (3 # 10) + (3 # 10) * k + (4 # 10) * x)%Q).
  rewrite Hlen.
  eexists _, v', (Spec.tier_comment combined),
    (Spec.clause (k < 5 # 10)%Q "Include more key concepts from the topic."
     ++ Spec.clause (x < 4 # 10)%Q
          "Your answer could align better with the expected content.").
  split; [reflexivity|]. cbn [feedback].
  rewrite detailed_feedback_clauses. fold combined. split.
  - f_equal. unfold Spec.clause at 1.
    destruct (decide (3 # 10 < 6 # 10)%Q) as [_|Hn]; [|exfalso; apply Hn; reflexivity].
    cbn [app]. do 2 f_equal. now rewrite <- !app_assoc.
  - unfold Spec.tier_comment.
    destruct (decide (8 # 10 <= combined)%Q) as [H8|_]; [exfalso; unfold combined in H8; lra|].
    destruct (decide (6 # 10 <= combined)%Q); [now left|now right].
Qed.

(** X9: for a SHORT question, with similarities between 0 and 1, an answer
    whose keyword score is below one half is never marked correct, however
    similar it is to the reference answer. *)
Theorem short_answer_needs_half_the_keywords (q : Question) (a : str) (v : vectorizer)
        (keyword : float) :
  Spec.cosine_in_range fit_transform_cosine ->
  question_type q = "SHORT" ->
  _calculate_keyword_score q a = Return keyword ->
  (keyword < 1 # 2)%Q ->
  exists r v',
    grade_answer fit_transform_cosine q a v = (Return r, v') /\
    is_correct r = false.
Proof.
  intros Hrange Hsh Hk Hlow.
  destruct (similarity_unit fit_transform_cosine (expected_answer q) a v Hrange)
    as (x & v' & Hx & Hx0 & Hx1).
  rewrite (grade_answer_short fit_transform_cosine q a Hsh).
  rewrite (grade_short_result fit_transform_cosine q a v v' keyword x Hk Hx).
  eexists _, v'. split; [reflexivity|]. cbn [is_correct].
  apply ge_false_iff. lra.
Qed.

End GradingProperties.

(** * Properties of the callers *)

Section CallerFacts.

Import Py.

Context {vectorizer : Type}.
Variable fit_transform_cosine : str -> str -> method vectorizer float.
Variable TfidfVectorizer : vectorizer.
Variable now : Z.

Lemma service_mock (q : Question) (a : str) (v : vectorizer) :
  service_grade_answer fit_transform_cosine q a (Mock v) =
    (fst (grade_answer fit_transform_cosine q a v),
     Mock (snd (grade_answer fit_transform_cosine q a v))).
Proof.
  unfold service_grade_answer.
  now destruct (grade_answer fit_transform_cosine q a v).
Qed.

(** The grading loop with the mock service grades every answer from the
    [i]-th on, saves it, and adds its score to the total; it raises
    nothing and touches neither the submission nor its table. *)
Lemma grade_each_mock (n : nat) :
  forall (i : nat) (v : vectorizer) (total : float) (h : heap),
    i + n = length (answers h) ->
    exists total' h',
      grade_each fit_transform_cosine n i (Mock v) total h = (Return total', h') /\
      submission h' = submission h /\
      submissions_table h' = submissions_table h /\
      take i (answers h') = take i (answers h) /\
      Forall2 (graded_by_mock fit_transform_cosine)
              (drop i (answers h)) (drop i (answers h')) /\
      total' = add_scores (drop i (answers h')) total /\
      answers_table h' = save_all (drop i (answers h')) (answers_table h).
Proof.
  induction n as [|n IH]; intros i v total h Hlen.
  - exists total, h. rewrite !drop_ge by lia. repeat split. constructor.
  - destruct (lookup_lt_is_Some_2 (answers h) i ltac:(lia)) as [answer Hanswer].
    cbn [grade_each]. rewrite Hanswer, service_mock.
    destruct (grade_answer_returns fit_transform_cosine
                (Answer.question answer) (Answer.answer_text answer) v)
      as (r & v1 & Hr).
    rewrite Hr. cbn [fst snd]. unfold bind, store_answer.
    set (answer' := with_grading_result answer r).
    set (h1 := {| submission := submission h;
                  answers := <[i := answer']> (answers h);
                  submissions_table := submissions_table h;
                  answers_table := <[Answer.id answer' := answer']> (answers_table h) |}).
    destruct (IH (S i) v1 (total + score r)%Q h1) as
      (total' & h' & Hrun & Hsub & Htbl & Htake & Hgraded & Htotal & Hsaved).
    { cbn [answers h1]. rewrite length_insert. lia. }
    exists total', h'. cbn [submission answers submissions_table answers_table h1] in *.
    assert (Hi : answers h' !! i = Some answer').
    { rewrite <- (lookup_take_lt (answers h') (S i) i) by lia.
      rewrite Htake, lookup_take_lt by lia.
      apply list_lookup_insert_eq. lia. }
    rewrite (drop_S _ _ _ Hi), (drop_S _ _ _ Hanswer).
    rewrite drop_insert_lt in Hgraded by lia.
    repeat split; try assumption.
    + replace i with (Nat.min i (S i)) at 1 2 by lia.
      rewrite <- !take_take, Htake, take_take.
      replace (Nat.min i (S i)) with i by lia.
      rewrite take_insert_ge by lia. rewrite take_take. f_equal. lia.
    + constructor; [|exact Hgraded]. now exists v, v1, r.
Qed.

(** What [_grade_submission] does in each case: it grades and saves every
    answer and assigns the total as a float; then the percentage fails on
    float by Decimal when the exam has positive total marks, and otherwise
    the feedback fails on a percentage that is [None]. *)
Lemma grade_submission_cases (h : heap) :
  let s := submission h in
  let M := hundredths (Exam.total_marks (Submission.exam s)) in
  exists o h',
    _grade_submission fit_transform_cosine TfidfVectorizer now h = (o, h') /\
    Forall2 (graded_by_mock fit_transform_cosine) (answers h) (answers h') /\
    answers_table h' = save_all (answers h') (answers_table h) /\
    Submission.total_score (submission h')
      = Some (PyFloat (add_scores (answers h') 0%Q)) /\
    Submission.id (submission h') = Submission.id s /\
    Submission.percentage (submission h') = Submission.percentage s /\
    ((0 < M)%Z ->
     o = Raise (TypeError "unsupported operand type(s) for /: 'float' and 'decimal.Decimal'") /\
     Submission.status (submission h') = "GRADING" /\
     submissions_table h' = <[Submission.id s := Submission.set_status "GRADING" s]>
                              (submissions_table h)) /\
    ((M <= 0)%Z -> Submission.percentage s = None ->
     o = Raise (TypeError "unsupported format string passed to NoneType.__format__") /\
     Submission.status (submission h') = "GRADED" /\
     submissions_table h' = <[Submission.id s := Submission.set_status "GRADING" s]>
                              (submissions_table h)) /\
    ((M <= 0)%Z -> Submission.percentage s <> None ->
     o = Return tt /\
     Submission.status (submission h') = "GRADED" /\
     submissions_table h' !! Submission.id s = Some (submission h')).
Proof.
  intros s M.
  set (s0 := Submission.set_status "GRADING" s).
  set (h0 := {| submission := s0; answers := answers h;
                submissions_table := <[Submission.id s0 := s0]> (submissions_table h);
                answers_table := answers_table h |}).
  destruct (grade_each_mock (length (answers h)) 0
              (MockGradingService_init TfidfVectorizer) 0%Q h0 eq_refl)
    as (total & h1 & Hrun & Hsub & Htbl & _ & Hgraded & Htotal & Hsaved).
  cbn [answers submission submissions_table answers_table h0] in *.
  rewrite !drop_0 in *. subst total.
  unfold _grade_submission, bind, update_submission, save_submission.
  cbn [submission answers submissions_table answers_table].
  fold s s0 h0.
  change (get_grading_service TfidfVectorizer (Some "mock"))
    with (Mock (MockGradingService_init TfidfVectorizer)).
  rewrite Hrun. rewrite Hsub, Htbl.
  unfold on_submission, Submission.calculate_percentage.
  cbn [submission answers submissions_table answers_table
       Submission.total_score Submission.set_total_score Submission.exam
       Submission.set_status s0 truediv_Decimal].
  fold M.
  destruct (Z.ltb_spec 0 M) as [HM|HM].
  - eexists _, _. split; [reflexivity|].
    cbn [submission answers submissions_table answers_table
         Submission.total_score Submission.id Submission.percentage Submission.status].
    repeat split; try assumption; try reflexivity; try lia.
  - unfold ret, lift, Submission.is_passed, format_2f.
    cbn [submission answers submissions_table answers_table
         Submission.total_score Submission.set_total_score Submission.exam
         Submission.set_status Submission.set_graded_at Submission.percentage
         Submission.set_grading_feedback Submission.id Submission.status default
         from_option id].
    change (Submission.percentage s0) with (Submission.percentage s).
    destruct (Submission.percentage s) as [p|] eqn:Hp.
    + destruct (Qle_bool _ _);
        (eexists _, _; split; [reflexivity|];
         cbn [submission answers submissions_table answers_table
              Submission.total_score Submission.id Submission.percentage
              Submission.status];
         repeat split; try assumption; try reflexivity; try lia; try congruence;
         try (intros; apply lookup_insert_eq)).
    + destruct (Qle_bool _ _);
        (eexists _, _; split; [reflexivity|];
         cbn [submission answers submissions_table answers_table
              Submission.total_score Submission.id Submission.percentage
              Submission.status];
         repeat split; try assumption; try reflexivity; try lia; try congruence).
Qed.

(** X10: [_grade_submission] never completes for a submission whose exam
    has positive total marks or whose percentage is still [None], as it is
    for the submission [create] has just made: having graded and saved
    every answer and assigned the total, it raises [TypeError].  The row of
    the submission in the table is left with the status "GRADING". *)
Theorem grade_submission_raises_TypeError (h : heap) :
  (0 < hundredths (Exam.total_marks (Submission.exam (submission h))))%Z \/
  Submission.percentage (submission h) = None ->
  exists msg h',
    _grade_submission fit_transform_cosine TfidfVectorizer now h
      = (Raise (TypeError msg), h') /\
    submissions_table h' !! Submission.id (submission h)
      = Some (Submission.set_status "GRADING" (submission h)) /\
    Forall2 (graded_by_mock fit_transform_cosine) (answers h) (answers h') /\
    answers_table h' = save_all (answers h') (answers_table h) /\
    Submission.total_score (submission h')
      = Some (PyFloat (add_scores (answers h') 0%Q)).
Proof.
  intros Hcase.
  destruct (grade_submission_cases h)
    as (o & h' & Hrun & Hgraded & Hsaved & Htotal & _ & _ & Hpos & Hnone & _).
  destruct (Z.ltb_spec 0 (hundredths (Exam.total_marks (Submission.exam (submission h)))))
    as [HM|HM].
  - destruct (Hpos HM) as (-> & _ & Htbl).
    eexists _, h'. split; [exact Hrun|]. rewrite Htbl, lookup_insert_eq. now repeat split.
  - destruct Hcase as [Hcase|Hcase]; [lia|].
    destruct (Hnone HM Hcase) as (-> & _ & Htbl).
    eexists _, h'. split; [exact Hrun|]. rewrite Htbl, lookup_insert_eq. now repeat split.
Qed.

(** What the grading step of [create] leaves behind. *)
Lemma create_grading_step_effects (h : heap) :
  let s := submission h in
  let M := hundredths (Exam.total_marks (Submission.exam s)) in
  exists h',
    create_grading_step fit_transform_cosine TfidfVectorizer now h = (Return tt, h') /\
    Forall2 (graded_by_mock fit_transform_cosine) (answers h) (answers h') /\
    answers_table h' = save_all (answers h') (answers_table h) /\
    Submission.total_score (submission h')
      = Some (PyFloat (add_scores (answers h') 0%Q)) /\
    submissions_table h' !! Submission.id s = Some (submission h') /\
    Submission.percentage (submission h') = Submission.percentage s /\
    ((0 < M)%Z \/ Submission.percentage s = None ->
     Submission.status (submission h') = "FAILED" /\
     exists msg,
       Submission.grading_feedback (submission h') = "Grading error: " ++ msg /\
       (msg = "unsupported operand type(s) for /: 'float' and 'decimal.Decimal'" \/
        msg = "unsupported format string passed to NoneType.__format__")).
Proof.
  intros s M.
  destruct (grade_submission_cases h)
    as (o & h' & Hrun & Hgraded & Hsaved & Htotal & Hid & Hpct & Hpos & Hnone & Hsome).
  fold s M in Hid, Hpct, Hpos, Hnone, Hsome.
  unfold create_grading_step, try_except_as. rewrite Hrun.
  assert (Hhandler : forall e,
    o = Raise e ->
    exists h2,
      (let (o0, self') := (o, h') in
       match o0 with
       | Return a => (Return a, self')
       | Raise e0 =>
           (do _ <- update_submission (Submission.set_status "FAILED");
            do _ <- update_submission
                      (Submission.set_grading_feedback ("Grading error: " ++ exc_msg e0));
            save_submission) self'
       end) = (Return tt, h2) /\
      answers h2 = answers h' /\ answers_table h2 = answers_table h' /\
      Submission.total_score (submission h2) = Submission.total_score (submission h') /\
      Submission.percentage (submission h2) = Submission.percentage (submission h') /\
      submissions_table h2 !! Submission.id s = Some (submission h2) /\
      Submission.status (submission h2) = "FAILED" /\
      Submission.grading_feedback (submission h2) = "Grading error: " ++ exc_msg e).
  { intros e ->. eexists. split; [reflexivity|].
    cbn [submission answers submissions_table answers_table
         Submission.total_score Submission.percentage Submission.status
         Submission.grading_feedback Submission.set_status
         Submission.set_grading_feedback Submission.id].
    rewrite Hid. repeat split. apply lookup_insert_eq. }
  destruct (Z.ltb_spec 0 M) as [HM|HM].
  - destruct (Hpos HM) as (Ho & _ & _).
    destruct (Hhandler _ Ho) as (h2 & -> & Ha & Hat & Hts & Hp & Hrow & Hst & Hfb).
    exists h2. rewrite Ha, Hat, Hts, Hp. repeat split; try assumption.
    eexists. split; [exact Hfb|]. now left.
  - destruct (Submission.percentage s) as [p|] eqn:Hp0.
    + destruct (Hsome HM ltac:(discriminate)) as (-> & Hst & Hrow).
      exists h'. split; [reflexivity|]. split; [exact Hgraded|].
      split; [exact Hsaved|]. split; [exact Htotal|]. split; [exact Hrow|].
      split; [exact Hpct|]. intros [?|?]; [lia|discriminate].
    + destruct (Hnone HM eq_refl) as (Ho & _ & _).
      destruct (Hhandler _ Ho) as (h2 & -> & Ha & Hat & Hts & Hp & Hrow & Hst & Hfb).
      exists h2. rewrite Ha, Hat, Hts, Hp. repeat split; try assumption.
      eexists. split; [exact Hfb|]. now right.
Qed.

(** X11: the grading step of [create] never raises, and it never leaves a
    "GRADED" submission behind when the exam has positive total marks or
    the submission had no percentage yet: the submission, in memory and in
    its table row, ends with the status "FAILED", a feedback "Grading
    error: ..." quoting the [TypeError], and the percentage it had. *)
Theorem create_marks_submission_failed (h : heap) :
  (0 < hundredths (Exam.total_marks (Submission.exam (submission h))))%Z \/
  Submission.percentage (submission h) = None ->
  exists msg h',
    create_grading_step fit_transform_cosine TfidfVectorizer now h = (Return tt, h') /\
    Submission.status (submission h') = "FAILED" /\
    Submission.grading_feedback (submission h') = "Grading error: " ++ msg /\
    (msg = "unsupported operand type(s) for /: 'float' and 'decimal.Decimal'" \/
     msg = "unsupported format string passed to NoneType.__format__") /\
    Submission.percentage (submission h') = Submission.percentage (submission h) /\
    submissions_table h' !! Submission.id (submission h) = Some (submission h').
Proof.
  intros Hcase.
  destruct (create_grading_step_effects h)
    as (h' & Hrun & _ & _ & _ & Hrow & Hpct & Hfailed).
  destruct (Hfailed Hcase) as (Hst & msg & Hfb & Hmsg).
  exists msg, h'. now repeat split.
Qed.

(** The bounds of claim C2, for a question of any type. *)
Lemma grade_answer_bounds (q : Question) (a : str) (v v' : vectorizer)
      (r : GradingResult) :
  Spec.cosine_in_range fit_transform_cosine ->
  (0 <= hundredths (marks q))%Z ->
  grade_answer fit_transform_cosine q a v = (Return r, v') ->
  (0 <= score r)%Q /\ (score r <= float_of_Decimal (marks q))%Q /\ feedback r <> [].
Proof.
  intros Hrange Hmarks Hr.
  destruct (keyword_score_unit q a) as (k & Hk & Hk0 & Hk1).
  destruct (similarity_unit fit_transform_cosine (expected_answer q) a v Hrange)
    as (x & v1 & Hx & Hx0 & Hx1).
  destruct (length_score_unit a) as [Hl0 Hl1].
  destruct (grade_answer_cases fit_transform_cosine q a) as [H|[H|H]];
    rewrite H in Hr.
  - rewrite grade_mcq_result in Hr. injection Hr as <- _. cbn [score feedback].
    unfold float_of_Decimal.
    destruct (bool_decide _); (split; [|split]); try discriminate; try lra;
      unfold Qle; simpl; lia.
  - rewrite (grade_short_result fit_transform_cosine q a v v1 k x Hk Hx) in Hr.
    injection Hr as <- _. cbn [score feedback]. unfold float_of_Decimal.
    destruct (scaled_score_bounds (hundredths (marks q))
                ((6 # 10) * k + (4 # 10) * x)%Q Hmarks) as [H0 H1]; [lra|lra|].
    split; [exact H0|]. split; [exact H1|]. apply feedback_nonempty.
  - rewrite (grade_long_result fit_transform_cosine q a v v1 k x Hk Hx) in Hr.
    injection Hr as <- _. cbn [score feedback]. unfold float_of_Decimal.
    destruct (scaled_score_bounds (hundredths (marks q))
                ((3 # 10) * _calculate_length_score a + (3 # 10) * k + (4 # 10) * x)%Q
                Hmarks) as [H0 H1]; [lra|lra|].
    split; [exact H0|]. split; [exact H1|]. apply detailed_feedback_nonempty.
Qed.

Lemma add_scores_bounds (graded : list Answer.t) (originals : list Answer.t)
      (total : float) :
  Forall2 (fun a a' => (0 <= score_value a')%Q /\
                       (score_value a' <= float_of_Decimal (marks (Answer.question a)))%Q)
          originals graded ->
  (total <= add_scores graded total)%Q /\
  (add_scores graded total <= total + marks_available originals)%Q.
Proof.
  intros H. revert total.
  induction H as [|a a' l l' [H0 H1] _ IH]; intros total.
  - unfold add_scores, marks_available. simpl. split; lra.
  - change (add_scores (a' :: l') total)
      with (add_scores l' (total + score_value a')%Q).
    change (marks_available (a :: l))
      with (float_of_Decimal (marks (Answer.question a)) + marks_available l)%Q.
    destruct (IH (total + score_value a')%Q) as [IH0 IH1]. split; lra.
Qed.

(** X12: whatever becomes of the submission, the grading step of [create]
    grades every answer: with similarities between 0 and 1 and questions
    of non-negative marks, each answer keeps its question and text and
    gets a float score between 0 and the marks of its question, a
    correctness flag and a feedback that is not empty; the total assigned
    to the submission is the sum of these scores and lies between 0 and
    the sum of the marks. *)
Theorem create_grades_every_answer (h : heap) :
  Spec.cosine_in_range fit_transform_cosine ->
  Forall (fun a => (0 <= hundredths (marks (Answer.question a)))%Z) (answers h) ->
  exists h',
    create_grading_step fit_transform_cosine TfidfVectorizer now h = (Return tt, h') /\
    Forall2
      (fun a a' =>
         Answer.id a' = Answer.id a /\
         Answer.question a' = Answer.question a /\
         Answer.answer_text a' = Answer.answer_text a /\
         exists x b,
           Answer.score a' = Some (PyFloat x) /\
           (0 <= x)%Q /\ (x <= float_of_Decimal (marks (Answer.question a)))%Q /\
           Answer.is_correct a' = Some b /\
           Answer.feedback a' <> [])
      (answers h) (answers h') /\
    Submission.total_score (submission h')
      = Some (PyFloat (add_scores (answers h') 0%Q)) /\
    (0 <= add_scores (answers h') 0%Q)%Q /\
    (add_scores (answers h') 0%Q <= marks_available (answers h))%Q.
Proof.
  intros Hrange Hmarks.
  destruct (create_grading_step_effects h)
    as (h' & Hrun & Hgraded & _ & Htotal & _).
  exists h'. split; [exact Hrun|].
  assert (Heach : Forall2
      (fun a a' =>
         Answer.id a' = Answer.id a /\
         Answer.question a' = Answer.question a /\
         Answer.answer_text a' = Answer.answer_text a /\
         exists x b,
           Answer.score a' = Some (PyFloat x) /\
           (0 <= x)%Q /\ (x <= float_of_Decimal (marks (Answer.question a)))%Q /\
           Answer.is_correct a' = Some b /\
           Answer.feedback a' <> [])
      (answers h) (answers h')).
  { clear Hrun Htotal. induction Hgraded as [|a a' l l' Ha _ IH]; [constructor|].
    inversion Hmarks as [|? ? Hm Hrest]; subst.
    constructor; [|now apply IH].
    destruct Ha as (v & v' & r & Hr & ->).
    destruct (grade_answer_bounds _ _ _ _ _ Hrange Hm Hr) as (H0 & H1 & Hf).
    repeat split. exists (score r), (is_correct r). now repeat split. }
  split; [exact Heach|]. split; [exact Htotal|].
  destruct (add_scores_bounds (answers h') (answers h) 0%Q) as [H0 H1].
  { eapply Forall2_impl; [exact Heach|].
    intros a a' (_ & _ & _ & x & b & Hs & H0 & H1 & _).
    unfold score_value. rewrite Hs. cbn. now split. }
  split; [exact H0|lra].
Qed.

Lemma save_all_other (graded : list Answer.t) (table : gmap nat Answer.t) (k : nat) :
  k ∉ map Answer.id graded -> save_all graded table !! k = table !! k.
Proof.
  revert table. induction graded as [|a l IH]; intros table Hk; [reflexivity|].
  cbn. unfold save_all in IH. rewrite IH.
  - apply lookup_insert_ne. intros Heq. apply Hk. rewrite <- Heq. left.
  - intros Hin. apply Hk. now right.
Qed.

Lemma save_all_lookup (graded : list Answer.t) (table : gmap nat Answer.t)
      (a' : Answer.t) :
  NoDup (map Answer.id graded) -> a' ∈ graded ->
  save_all graded table !! Answer.id a' = Some a'.
Proof.
  revert table. induction graded as [|a l IH]; intros table Hnd Ha'.
  - inversion Ha'.
  - cbn in Hnd. apply NoDup_cons in Hnd as [Hfresh Hnd].
    change (save_all (a :: l) table) with (save_all l (<[Answer.id a := a]> table)).
    apply elem_of_cons in Ha' as [-> |Ha'].
    + rewrite save_all_other by exact Hfresh. apply lookup_insert_eq.
    + now apply IH.
Qed.

(** X13: when the answers have distinct primary keys, the grading step of
    [create] leaves each graded answer in the answers table under its key,
    and leaves the rows of all other answers as they were. *)
Theorem create_saves_every_answer (h : heap) :
  NoDup (map Answer.id (answers h)) ->
  exists h',
    create_grading_step fit_transform_cosine TfidfVectorizer now h = (Return tt, h') /\
    map Answer.id (answers h') = map Answer.id (answers h) /\
    (forall a', a' ∈ answers h' -> answers_table h' !! Answer.id a' = Some a') /\
    (forall k, k ∉ map Answer.id (answers h) ->
               answers_table h' !! k = answers_table h !! k).
Proof.
  intros Hnd.
  destruct (create_grading_step_effects h)
    as (h' & Hrun & Hgraded & Hsaved & _).
  exists h'. split; [exact Hrun|].
  assert (Hids : map Answer.id (answers h') = map Answer.id (answers h)).
  { clear -Hgraded. induction Hgraded as [|a a' l l' Ha _ IH]; [reflexivity|].
    cbn. rewrite IH. destruct Ha as (_ & _ & r & _ & ->). reflexivity. }
  split; [exact Hids|]. rewrite Hsaved. rewrite <- Hids in Hnd. split.
  - intros a' Ha'. now apply save_all_lookup.
  - intros k Hk. apply save_all_other. now rewrite Hids.
Qed.

End CallerFacts.

Section ModelFacts.

Import Py.


End ModelFacts.

Section SerializerFacts.

Import Py.

Context {vectorizer : Type}.
Variable fit_transform_cosine : str -> str -> method vectorizer float.


End SerializerFacts.

Section ValidationFacts.

Import Py.

Variable questions_of_exam : Z -> list Z.
Variable repr_set : gset Z -> str.

Lemma absorb_member (x : Z) (X : gset Z) : x ∈ X -> {[x]} ∪ X = X.
Proof.
  intros Hx. apply set_eq. intros y. rewrite elem_of_union, elem_of_singleton.
  split; [intros [-> |Hy]; assumption|now right].
Qed.

Lemma size_add_fresh (x : Z) (X : gset Z) : x ∉ X -> size ({[x]} ∪ X) = S (size X).
Proof.
  intros Hx. rewrite size_union by now apply disjoint_singleton_l.
  now rewrite size_singleton.
Qed.

Lemma size_list_to_set_le (l : list Z) : size (list_to_set l : gset Z) <= length l.
Proof.
  induction l as [|x l IH]; [reflexivity|]. cbn [list_to_set length].
  destruct (decide (x ∈ (list_to_set l : gset Z))) as [Hin|Hout].
  - rewrite absorb_member by exact Hin. lia.
  - rewrite size_add_fresh by exact Hout. lia.
Qed.

Lemma length_size_NoDup (l : list Z) :
  length l = size (list_to_set l : gset Z) <-> NoDup l.
Proof.
  split; [|intros H; symmetry; now apply size_list_to_set].
  induction l as [|x l IH]; [constructor|]. cbn [list_to_set length]. intros Hlen.
  pose proof (size_list_to_set_le l) as Hle.
  destruct (decide (x ∈ (list_to_set l : gset Z))) as [Hin|Hout].
  - rewrite absorb_member in Hlen by exact Hin. lia.
  - rewrite size_add_fresh in Hlen by exact Hout.
    constructor; [now rewrite elem_of_list_to_set in Hout|]. apply IH. lia.
Qed.

(** X16: [validate] accepts a submission exactly when its question ids are
    pairwise distinct and all belong to the exam, and then returns the data
    unchanged; a question foreign to the exam is reported in preference to
    a duplicate.  An accepted submission therefore has no more answers than
    the exam has questions. *)
Theorem validate_accepts_distinct_questions_of_exam (data : submission_data) :
  let ids := map fst (submitted_answers data) in
  let of_exam := questions_of_exam (exam_id data) in
  (validate questions_of_exam repr_set data = Return data <->
   NoDup ids /\ forall i, i ∈ ids -> i ∈ of_exam) /\
  ((exists i, i ∈ ids /\ i ∉ of_exam) ->
   validate questions_of_exam repr_set data
     = Raise (ValidationError
                ("Questions "
                 ++ repr_set (list_to_set ids ∖ list_to_set of_exam)
                 ++ " do not belong to this exam"))) /\
  ((forall i, i ∈ ids -> i ∈ of_exam) -> ~ NoDup ids ->
   validate questions_of_exam repr_set data
     = Raise (ValidationError "Duplicate question submissions detected")) /\
  (validate questions_of_exam repr_set data = Return data ->
   length (submitted_answers data) <= size (list_to_set of_exam : gset Z)).
Proof.
  intros ids of_exam.
  assert (Hinv : size (list_to_set ids ∖ list_to_set of_exam : gset Z) = 0
                 <-> forall i, i ∈ ids -> i ∈ of_exam).
  { rewrite size_empty_iff. split.
    - intros He i Hi. destruct (decide (i ∈ of_exam)) as [|Hn]; [assumption|].
      exfalso. apply (not_elem_of_empty (C := gset Z) i). rewrite <- He.
      apply elem_of_difference. rewrite !elem_of_list_to_set. now split.
    - intros Hsub i. rewrite elem_of_difference, !elem_of_list_to_set.
      split; [|intros H; now apply not_elem_of_empty in H].
      intros [Hi Hn]. exfalso. now apply Hn, Hsub. }
  assert (Hrun : validate questions_of_exam repr_set data =
    if negb (bool_decide (size (list_to_set ids ∖ list_to_set of_exam : gset Z) = 0))
    then Raise (ValidationError
                  ("Questions "
                   ++ repr_set (list_to_set ids ∖ list_to_set of_exam)
                   ++ " do not belong to this exam"))
    else if negb (bool_decide (length ids = size (list_to_set ids : gset Z)))
         then Raise (ValidationError "Duplicate question submissions detected")
         else Return data) by reflexivity.
  rewrite Hrun. clear Hrun.
  assert (Haccept :
    (if negb (bool_decide (size (list_to_set ids ∖ list_to_set of_exam : gset Z) = 0))
     then Raise (ValidationError
                   ("Questions "
                    ++ repr_set (list_to_set ids ∖ list_to_set of_exam)
                    ++ " do not belong to this exam"))
     else if negb (bool_decide (length ids = size (list_to_set ids : gset Z)))
          then Raise (ValidationError "Duplicate question submissions detected")
          else Return data) = Return data <->
    NoDup ids /\ forall i, i ∈ ids -> i ∈ of_exam).
  { repeat case_bool_decide; cbn [negb]; rewrite <- Hinv, <- length_size_NoDup;
      split; try discriminate; try tauto; intros _; now split. }
  split; [exact Haccept|]. split; [|split].
  - intros (i & Hi & Hn). rewrite bool_decide_eq_false_2; [reflexivity|].
    rewrite Hinv. intros Hsub. now apply Hn, Hsub.
  - intros Hsub Hdup. rewrite bool_decide_eq_true_2 by now apply Hinv.
    rewrite bool_decide_eq_false_2; [reflexivity|]. now rewrite length_size_NoDup.
  - intros Hok. apply Haccept in Hok as [Hnd Hsub].
    rewrite <- (length_map fst). fold ids.
    rewrite <- (size_list_to_set (C := gset Z) ids) by exact Hnd.
    apply subseteq_size. intros i. rewrite !elem_of_list_to_set. apply Hsub.
Qed.

End ValidationFacts.

(** * Examples for the further properties *)

Section FurtherExamples.

Import Py.


Lemma blank_answer_never_correct_witness :
  question_type essay_question <> "MCQ" /\
  question_type essay_question <> "TRUE_FALSE" /\
  Spec.blank "   " /\
  exists r,
    grade_answer toy_fit_transform_cosine essay_question "   " 0 = (Return r, 0) /\
    is_correct r = false.
Proof.
  assert (H1 : question_type essay_question <> "MCQ") by discriminate.
  assert (H2 : question_type essay_question <> "TRUE_FALSE") by discriminate.
  assert (H3 : Spec.blank "   ") by (repeat constructor).
  split; [exact H1|]. split; [exact H2|]. split; [exact H3|].
  exact (blank_answer_never_correct toy_fit_transform_cosine essay_question "   " 0
           H1 H2 H3).
Defined.


Lemma length_score_monotone_witness :
  length (split "one two") <= length (split "one two three") /\
  (_calculate_length_score "one two" <= _calculate_length_score "one two three")%Q.
Proof.
  assert (H : length (split "one two") <= length (split "one two three"))
    by (vm_compute; lia).
  split; [exact H|].
  exact (proj1 (length_score_monotone "one two" "one two three" H)).
Defined.

Lemma reference_answer_matches_extracted_keywords_witness :
  default [] (grading_criteria essay_question !! ("keywords" : str)) = [] /\
  Spec.ci_substring (expected_answer essay_question) (expected_answer essay_question) /\
  exists k,
    _calculate_keyword_score essay_question (expected_answer essay_question) = Return k.
Proof.
  assert (H1 : default [] (grading_criteria essay_question !! ("keywords" : str)) = [])
    by reflexivity.
  assert (H2 : Spec.ci_substring (expected_answer essay_question)
                                 (expected_answer essay_question)).
  { exists [], (expected_answer essay_question), []. now rewrite app_nil_r. }
  split; [exact H1|]. split; [exact H2|].
  destruct (reference_answer_matches_extracted_keywords essay_question
              (expected_answer essay_question) H1 H2) as (k & Hk & _).
  exists k. exact Hk.
Defined.

Lemma extracted_keywords_wellformed_witness :
  ("coal" : str) ∈ _extract_keywords (expected_answer essay_question) 5 /\
  4 <= length ("coal" : str) /\
  contains "coal" (lower (expected_answer essay_question)) = true.
Proof.
  assert (H : ("coal" : str) ∈ _extract_keywords (expected_answer essay_question) 5).
  { apply (bool_decide_unpack _). vm_compute. exact I. }
  split; [exact H|].
  destruct (extracted_keywords_wellformed (expected_answer essay_question) 5)
    as (_ & _ & Hwf).
  destruct (Hwf "coal" H) as (H4 & _ & Hc). split; [exact H4|exact Hc].
Defined.

Lemma correctness_flag_agrees_with_score_witness :
  question_type short_question <> "MCQ" /\
  question_type short_question <> "TRUE_FALSE" /\
  (0 <= hundredths (marks short_question))%Z /\
  exists r v',
    grade_answer toy_fit_transform_cosine short_question "Glucose and OXYGEN" 0
      = (Return r, v').
Proof.
  assert (H1 : question_type short_question <> "MCQ") by discriminate.
  assert (H2 : question_type short_question <> "TRUE_FALSE") by discriminate.
  assert (H3 : (0 <= hundredths (marks short_question))%Z) by (simpl; lia).
  split; [exact H1|]. split; [exact H2|]. split; [exact H3|].
  destruct (correctness_flag_agrees_with_score toy_fit_transform_cosine short_question
              "Glucose and OXYGEN" 0 H1 H2 H3) as (r & v' & H & _).
  exists r, v'. exact H.
Defined.

Lemma short_essay_never_excellent_witness :
  Spec.cosine_in_range toy_fit_transform_cosine /\
  length (split "Coal was cheap") < 50 /\
  exists r v',
    grade_answer toy_fit_transform_cosine essay_question "Coal was cheap" 0
      = (Return r, v').
Proof.
  assert (H : length (split "Coal was cheap") < 50) by (vm_compute; lia).
  split; [exact toy_cosine_in_range|]. split; [exact H|].
  destruct (short_essay_never_excellent toy_fit_transform_cosine essay_question
              "Coal was cheap" 0 toy_cosine_in_range
              ltac:(discriminate) ltac:(discriminate) ltac:(discriminate) H)
    as (r & v' & _ & _ & Hr & _).
  exists r, v'. exact Hr.
Defined.

Lemma short_answer_needs_half_the_keywords_witness :
  Spec.cosine_in_range toy_fit_transform_cosine /\
  question_type short_question = "SHORT" /\
  exists k,
    _calculate_keyword_score short_question "Plants produce oxygen" = Return k /\
    (k < 1 # 2)%Q /\
    exists r v',
      grade_answer toy_fit_transform_cosine short_question "Plants produce oxygen" 0
        = (Return r, v') /\
      is_correct r = false.
Proof.
  split; [exact toy_cosine_in_range|]. split; [reflexivity|].
  eexists. split; [reflexivity|].
  assert (Hk : (float_of_nat 1 / float_of_nat 3 < 1 # 2)%Q) by reflexivity.
  split; [exact Hk|].
  exact (short_answer_needs_half_the_keywords toy_fit_transform_cosine short_question
           "Plants produce oxygen" 0 _ toy_cosine_in_range eq_refl eq_refl Hk).
Defined.

Lemma grade_submission_raises_TypeError_witness :
  (0 < hundredths (Exam.total_marks (Submission.exam (submission example_heap))))%Z /\
  exists msg h',
    _grade_submission toy_fit_transform_cosine 0 1700000000%Z example_heap
      = (Raise (TypeError msg), h').
Proof.
  assert (H : (0 < hundredths (Exam.total_marks
                                 (Submission.exam (submission example_heap))))%Z)
    by (simpl; lia).
  split; [exact H|].
  destruct (grade_submission_raises_TypeError toy_fit_transform_cosine 0 1700000000%Z
              example_heap (or_introl H)) as (msg & h' & Hrun & _).
  exists msg, h'. exact Hrun.
Defined.

Lemma create_marks_submission_failed_witness :
  Submission.percentage (submission example_heap) = None /\
  exists h',
    create_grading_step toy_fit_transform_cosine 0 1700000000%Z example_heap
      = (Return tt, h') /\
    Submission.status (submission h') = "FAILED".
Proof.
  split; [reflexivity|].
  destruct (create_marks_submission_failed toy_fit_transform_cosine 0 1700000000%Z
              example_heap (or_intror eq_refl)) as (msg & h' & Hrun & Hst & _).
  exists h'. split; [exact Hrun|exact Hst].
Defined.

Lemma create_grades_every_answer_witness :
  Spec.cosine_in_range toy_fit_transform_cosine /\
  Forall (fun a => (0 <= hundredths (marks (Answer.question a)))%Z)
         (answers example_heap) /\
  exists h',
    create_grading_step toy_fit_transform_cosine 0 1700000000%Z example_heap
      = (Return tt, h') /\
    (add_scores (answers h') 0%Q <= marks_available (answers example_heap))%Q.
Proof.
  assert (H : Forall (fun a => (0 <= hundredths (marks (Answer.question a)))%Z)
                     (answers example_heap)).
  { repeat constructor; simpl; lia. }
  split; [exact toy_cosine_in_range|]. split; [exact H|].
  destruct (create_grades_every_answer toy_fit_transform_cosine 0 1700000000%Z
              example_heap toy_cosine_in_range H) as (h' & Hrun & _ & _ & _ & Hle).
  exists h'. split; [exact Hrun|exact Hle].
Defined.

Lemma create_saves_every_answer_witness :
  NoDup (map Answer.id (answers example_heap)) /\
  exists h',
    create_grading_step toy_fit_transform_cosine 0 1700000000%Z example_heap
      = (Return tt, h') /\
    map Answer.id (answers h') = [1; 2].
Proof.
  assert (H : NoDup (map Answer.id (answers example_heap))).
  { apply (bool_decide_unpack _). vm_compute. exact I. }
  split; [exact H|].
  destruct (create_saves_every_answer toy_fit_transform_cosine 0 1700000000%Z
              example_heap H) as (h' & Hrun & Hids & _).
  exists h'. split; [exact Hrun|exact Hids].
Defined.



Lemma validate_accepts_distinct_questions_of_exam_witness :
  let data := {| exam_id := 5; submitted_answers := [(1%Z, "B"); (3%Z, "oxygen")] |} in
  NoDup (map fst (submitted_answers data)) /\
  (forall i, i ∈ map fst (submitted_answers data) -> i ∈ [1; 2; 3]%Z) /\
  validate (fun _ => [1; 2; 3]%Z) (fun _ => "{...}") data = Return data.
Proof.
  intros data.
  assert (H1 : NoDup (map fst (submitted_answers data))).
  { apply (bool_decide_unpack _). vm_compute. exact I. }
  assert (H2 : forall i, i ∈ map fst (submitted_answers data) -> i ∈ [1; 2; 3]%Z).
  { intros i Hi. cbn in Hi.
    apply elem_of_cons in Hi as [-> |Hi]; [left|].
    apply list_elem_of_singleton in Hi. subst i. right. right. left. }
  split; [exact H1|]. split; [exact H2|].
  exact (proj2 (proj1 (validate_accepts_distinct_questions_of_exam
                         (fun _ => [1; 2; 3]%Z) (fun _ => "{...}") data))
               (conj H1 H2)).
Defined.

End FurtherExamples.
